(** * Task orchestration service and content types of langflow

    A shallow embedding of
    - [backend/base/langflow/services/task_orchestration/service.py]
      (the orchestration service, its notification fan-out and the
      derivation of the job-store URL), and
    - [backend/base/langflow/schema/content_types.py]
      (the content classes with their [to_dict] / [from_dict] pair),
    with the properties of the specification stated over it. *)

From Stdlib Require Import ZArith Ascii String List Bool Lia.
From Stdlib Require SpecFloat.
From stdpp Require Import base option list strings gmap.

Local Open Scope string_scope.

(** ** Python strings

    Strings are byte strings (the UTF-8 form of the Python text); the
    separators the code cuts at are ASCII, so the cuts fall where Python's
    do. *)

Module PyStr.

(** [s.startswith(p)] *)
Fixpoint startswith (s p : string) {struct p} : bool :=
  match p with
  | EmptyString => true
  | String c p' =>
      match s with
      | EmptyString => false
      | String d s' => if Ascii.eqb c d then startswith s' p' else false
      end
  end.

(** [c in s] for a one-character needle. *)
Fixpoint contains (c : ascii) (s : string) : bool :=
  match s with
  | EmptyString => false
  | String d s' => if Ascii.eqb c d then true else contains c s'
  end.

(** The cut of [s.split(c, 1)]: the text before and after the first [c]. *)
Fixpoint cut_first (c : ascii) (s : string) : option (string * string) :=
  match s with
  | EmptyString => None
  | String d s' =>
      if Ascii.eqb c d then Some (EmptyString, s')
      else match cut_first c s' with
           | Some (h, t) => Some (String d h, t)
           | None => None
           end
  end.

(** The cut of [s.rsplit(c, 1)]: the text before and after the last [c]. *)
Fixpoint cut_last (c : ascii) (s : string) : option (string * string) :=
  match s with
  | EmptyString => None
  | String d s' =>
      match cut_last c s' with
      | Some (h, t) => Some (String d h, t)
      | None => if Ascii.eqb c d then Some (EmptyString, s') else None
      end
  end.

(** [s.split(c, 1)] *)
Definition split1 (c : ascii) (s : string) : list string :=
  match cut_first c s with
  | Some (h, t) => [h; t]
  | None => [s]
  end.

(** [s.rsplit(c, 1)] *)
Definition rsplit1 (c : ascii) (s : string) : list string :=
  match cut_last c s with
  | Some (h, t) => [h; t]
  | None => [s]
  end.

(** [parts[i]]; total here, every use below is guarded by a length test. *)
Definition item (parts : list string) (i : nat) : string :=
  nth i parts EmptyString.

End PyStr.

(** ** [add_tasks_to_database_url] (service.py, lines 47-60) *)

Definition add_tasks_to_database_url (database_url : string) : string :=
  if PyStr.startswith database_url "sqlite://" then
    let parts := PyStr.rsplit1 "." database_url in
    if Nat.ltb 1 (List.length parts)
    then PyStr.item parts 0 +:+ "-tasks." +:+ PyStr.item parts 1
    else database_url +:+ "-tasks"
  else if existsb (PyStr.startswith database_url) ["postgresql://"; "mysql://"] then
    if PyStr.contains "?" database_url then
      let parts := PyStr.split1 "?" database_url in
      PyStr.item parts 0 +:+ "_tasks?" +:+ PyStr.item parts 1
    else database_url +:+ "_tasks"
  else database_url.

(** ** Outcomes of Python calls *)

(** A raised exception: its class name and its message, [str(e)]. *)
Record exn := Exn { exn_class : string; exn_msg : string }.

Definition ValueError (msg : string) : exn := Exn "ValueError" msg.
Definition ValidationError (msg : string) : exn := Exn "ValidationError" msg.
Definition IntegrityError (msg : string) : exn := Exn "IntegrityError" msg.

Inductive outcome (A : Type) : Type :=
| Ok (a : A)
| Raise (e : exn).
Arguments Ok {A} a.
Arguments Raise {A} e.

(** Dictionaries with string values, in insertion order. *)
Definition strdict := list (string * string).

Fixpoint dict_get {V : Type} (d : list (string * V)) (k : string) : option V :=
  match d with
  | [] => None
  | (k', v) :: d' => if String.eqb k k' then Some v else dict_get d' k
  end.

(** ** Records of the storage layer *)

Module Task.
(** Modelled from the spec: the [Task] table of
    [services/database/models/task/model.py], which is outside the
    sources at hand; the fields are those of the data model of the spec
    and those the service reads.  Timestamps are kept by the storage
    layer and no service operation reads or writes them. *)
Record t := mk {
  id : string;
  flow_id : string;
  author_id : string;
  assignee_id : string;
  category : string;
  state : string;
  status : string;
  cron_expression : option string;
  result : option strdict
}.
End Task.

(** [TaskRead.model_validate(task, from_attributes=True)] copies the
    attributes of the row, so a [TaskRead] is the row's record. *)
Abbreviation TaskRead := Task.t.

Module TaskCreate.
(** Modelled from the spec: the creation schema, a [Task] without the
    generated identifier, the status and the result. *)
Record t := mk {
  flow_id : string;
  author_id : string;
  assignee_id : string;
  category : string;
  state : string;
  cron_expression : option string
}.
End TaskCreate.

Module TaskUpdate.
(** Modelled from the spec: the partial update, with the fields the
    service sets ([status], [state], [result]).  [None] is an unset
    field; [result] may be set to [None] explicitly. *)
Record t := mk {
  status : option string;
  state : option string;
  result : option (option strdict)
}.
Definition empty : t := mk None None None.
End TaskUpdate.

Module Subscription.
(** Modelled from the spec: the [Subscription] table of
    [services/database/models/subscription/model.py]; a NULL filter
    column is [None]. *)
Record t := mk {
  id : string;
  flow_id : string;
  event_type : string;
  category : option string;
  state : option string
}.
End Subscription.

(** ** [TaskNotification] (service.py, lines 29-44) *)

Module TaskNotification.
Record t := mk {
  task_id : string;
  flow_id : string;
  event_type : string;
  category : string;
  state : string;
  status : string
}.

(** [notification.model_dump()] *)
Definition model_dump (n : t) : strdict :=
  [("task_id", task_id n); ("flow_id", flow_id n);
   ("event_type", event_type n); ("category", category n);
   ("state", state n); ("status", status n)].

Definition field (d : strdict) (k : string) : outcome string :=
  match dict_get d k with
  | Some v => Ok v
  | None => Raise (ValidationError (k +:+ ": Field required"))
  end.

(** The constructor applied to the keywords of [d]: every field is required. *)
Definition of_dict (d : strdict) : outcome t :=
  match field d "task_id" with Raise e => Raise e | Ok a =>
  match field d "flow_id" with Raise e => Raise e | Ok b =>
  match field d "event_type" with Raise e => Raise e | Ok c =>
  match field d "category" with Raise e => Raise e | Ok x =>
  match field d "state" with Raise e => Raise e | Ok y =>
  match field d "status" with Raise e => Raise e | Ok z =>
    Ok (mk a b c x y z)
  end end end end end end.
End TaskNotification.

(** ** SQL predicates: three-valued logic, [None] is NULL *)

Module Sql.
Definition eq (col : option string) (v : string) : option bool :=
  match col with
  | Some c => Some (String.eqb c v)
  | None => None
  end.

Definition is_null (col : option string) : option bool :=
  match col with
  | Some _ => Some false
  | None => Some true
  end.

Definition and (a b : option bool) : option bool :=
  match a, b with
  | Some false, _ | _, Some false => Some false
  | Some true, Some true => Some true
  | _, _ => None
  end.

Definition or (a b : option bool) : option bool :=
  match a, b with
  | Some true, _ | _, Some true => Some true
  | Some false, Some false => Some false
  | _, _ => None
  end.

(** A row is selected when its predicate is TRUE (not FALSE, not NULL). *)
Definition selected (p : option bool) : bool :=
  match p with
  | Some true => true
  | _ => false
  end.
End Sql.

(** ** The state of [TaskOrchestrationService] *)

(** The trigger handed to the scheduler's [add_job]. *)
Inductive trigger :=
| Immediate
| CronTrigger (crontab : string).

(** The database tables ([self.db]), the notification deque
    ([self.notification_queue], each entry a dumped notification) and the
    job store of [self.scheduler], keyed by job id. *)
Record service := mkService {
  tasks : gmap string Task.t;
  subscriptions : list Subscription.t;
  notification_queue : list strdict;
  jobs : gmap string trigger
}.

Definition set_tasks (f : gmap string Task.t → gmap string Task.t) (s : service) : service :=
  mkService (f (tasks s)) (subscriptions s) (notification_queue s) (jobs s).
Definition set_notification_queue (f : list strdict → list strdict) (s : service) : service :=
  mkService (tasks s) (subscriptions s) (f (notification_queue s)) (jobs s).
Definition set_jobs (f : gmap string trigger → gmap string trigger) (s : service) : service :=
  mkService (tasks s) (subscriptions s) (notification_queue s) (f (jobs s)).

(** A method of the service: it returns or raises, and leaves a state
    behind in both cases (what was committed before a raise stays). *)
Definition M (A : Type) : Type := service → outcome A * service.

Definition ret {A} (a : A) : M A := fun s => (Ok a, s).
Definition raise {A} (e : exn) : M A := fun s => (Raise e, s).
Definition bind {A B} (c : M A) (k : A → M B) : M B :=
  fun s => match c s with
           | (Ok a, s') => k a s'
           | (Raise e, s') => (Raise e, s')
           end.
Definition gets {A} (f : service → A) : M A := fun s => (Ok (f s), s).
Definition modify (f : service → service) : M unit := fun s => (Ok tt, f s).

(** [try: body except Exception as e: handler(e)] *)
Definition try_except {A} (body : M A) (handler : exn → M A) : M A :=
  fun s => match body s with
           | (Ok a, s') => (Ok a, s')
           | (Raise e, s') => handler e s'
           end.

Notation "'let!' x ':=' c 'in' k" := (bind c (fun x => k))
  (at level 10, x pattern, c at level 100, k at level 200).
Notation "c ';;' k" := (bind c (fun _ => k))
  (at level 100, k at level 200, right associativity).

(** [for x in xs: body(x)] *)
Fixpoint for_each {A} (xs : list A) (body : A → M unit) : M unit :=
  match xs with
  | [] => ret tt
  | x :: xs' => body x ;; for_each xs' body
  end.

Section TaskOrchestrationService.

(** The category-specific processing step: it returns a result payload or
    raises.  The source ships [placeholder_process_task] below. *)
Variable _process_task : TaskRead → outcome strdict.

(** Whether [CronTrigger.from_crontab] accepts the expression. *)
Variable valid_crontab : string → bool.

(** *** Notifications (lines 142-176) *)

Definition _add_notification (task : TaskRead) (event_type flow_id : string) : M unit :=
  let notification :=
    TaskNotification.mk (Task.id task) flow_id event_type
      (Task.category task) (Task.state task) (Task.status task) in
  modify (set_notification_queue (fun q => (q ++ [TaskNotification.model_dump notification])%list)).

(** The WHERE clause of the query of [_notify]. *)
Definition notify_filter (task : TaskRead) (sub : Subscription.t) : option bool :=
  Sql.or
    (Sql.and (Sql.eq (Subscription.category sub) (Task.category task))
             (Sql.eq (Subscription.state sub) (Task.state task)))
    (Sql.and (Sql.is_null (Subscription.category sub))
             (Sql.is_null (Subscription.state sub))).

Definition select_subscriptions (task : TaskRead) : M (list Subscription.t) :=
  gets (fun s => List.filter (fun sub => Sql.selected (notify_filter task sub)) (subscriptions s)).

Definition _notify (task : TaskRead) (event_type : string) : M unit :=
  _add_notification task event_type (Task.author_id task) ;;
  _add_notification task event_type (Task.assignee_id task) ;;
  let! subs := select_subscriptions task in
  for_each subs (fun subscription =>
    _add_notification task event_type (Subscription.flow_id subscription)).

(** The [while] loop of [get_notifications], by recursion on the entries
    still queued: each turn pops the head and rebuilds the notification. *)
Fixpoint drain (queue : list strdict) (notifications : list TaskNotification.t)
  : outcome (list TaskNotification.t) * list strdict :=
  match queue with
  | [] => (Ok notifications, [])
  | d :: queue' =>
      match TaskNotification.of_dict d with
      | Ok n => drain queue' (notifications ++ [n])%list
      | Raise e => (Raise e, queue')
      end
  end.

Definition get_notifications : M (list TaskNotification.t) :=
  fun s => let (r, q) := drain (notification_queue s) [] in
           (r, set_notification_queue (fun _ => q) s).

(** *** Scheduling (lines 200-207) *)

Definition from_crontab (expr : string) : M trigger :=
  if valid_crontab expr then ret (CronTrigger expr)
  else raise (ValueError "Wrong number of fields; got a malformed crontab expression").

(** [add_job(..., id=str(task.id), replace_existing=True)] *)
Definition add_job (job_id : string) (tr : trigger) : M unit :=
  modify (set_jobs (fun js => <[job_id := tr]> js)).

Definition _schedule_task (task : TaskRead) : M unit :=
  match Task.cron_expression task with
  | Some (String c e) =>
      let! tr := from_crontab (String c e) in
      add_job (Task.id task) tr
  | _ => add_job (Task.id task) Immediate
  end.

(** *** Task operations (lines 87-140) *)

Definition not_found (task_id : string) : exn :=
  ValueError ("Task with id " +:+ task_id +:+ " not found").

(** [Task.model_validate(task_create, from_attributes=True)] followed by
  [task.status = "pending"]; [new_id] is the identifier drawn by the
  table's default factory. *)
Definition new_task (new_id : string) (task_create : TaskCreate.t) : Task.t :=
  Task.mk new_id (TaskCreate.flow_id task_create)
    (TaskCreate.author_id task_create) (TaskCreate.assignee_id task_create)
    (TaskCreate.category task_create) (TaskCreate.state task_create)
    "pending" (TaskCreate.cron_expression task_create) None.

Definition create_task (new_id : string) (task_create : TaskCreate.t) : M TaskRead :=
  let task := new_task new_id task_create in
  let! existing := gets (fun s => tasks s !! new_id) in
  match existing with
  | Some _ => raise (IntegrityError ("UNIQUE constraint failed: task.id"))
  | None =>
      modify (set_tasks (fun ts => <[new_id := task]> ts)) ;;
      _notify task "task_created" ;;
      _schedule_task task ;;
      ret task
  end.

(** One item of [task_update.model_dump(exclude_unset=True)]. *)
Inductive item :=
  | status_item (v : string)
  | state_item (v : string)
  | result_item (v : option strdict).

Definition model_dump_exclude_unset (u : TaskUpdate.t) : list item :=
  (match TaskUpdate.status u with Some v => [status_item v] | None => [] end ++
   match TaskUpdate.state u with Some v => [state_item v] | None => [] end ++
   match TaskUpdate.result u with Some v => [result_item v] | None => [] end)%list.

Definition setattr (task : Task.t) (kv : item) : Task.t :=
  match kv with
  | status_item v =>
      Task.mk (Task.id task) (Task.flow_id task) (Task.author_id task)
        (Task.assignee_id task) (Task.category task) (Task.state task)
        v (Task.cron_expression task) (Task.result task)
  | state_item v =>
      Task.mk (Task.id task) (Task.flow_id task) (Task.author_id task)
        (Task.assignee_id task) (Task.category task) v
        (Task.status task) (Task.cron_expression task) (Task.result task)
  | result_item v =>
      Task.mk (Task.id task) (Task.flow_id task) (Task.author_id task)
        (Task.assignee_id task) (Task.category task) (Task.state task)
        (Task.status task) (Task.cron_expression task) v
  end.

(** The [for] loop of [update_task]: set one attribute, commit, refresh. *)
Fixpoint apply_items (task_id : string) (items : list item) (task : Task.t) : M Task.t :=
  match items with
  | [] => ret task
  | kv :: items' =>
      let task' := setattr task kv in
      modify (set_tasks (fun ts => <[task_id := task']> ts)) ;;
      apply_items task_id items' task'
  end.

Definition update_task (task_id : string) (task_update : TaskUpdate.t) : M TaskRead :=
  let! found := gets (fun s => tasks s !! task_id) in
  match found with
  | None => raise (not_found task_id)
  | Some task =>
      let! task := apply_items task_id (model_dump_exclude_unset task_update) task in
      _notify task "task_updated" ;;
      ret task
  end.

Definition get_task (task_id : string) : M TaskRead :=
  let! found := gets (fun s => tasks s !! task_id) in
  match found with
  | None => raise (not_found task_id)
  | Some task => ret task
  end.


Definition delete_task (task_id : string) : M unit :=
  let! found := gets (fun s => tasks s !! task_id) in
  match found with
  | None => raise (not_found task_id)
  | Some _ => modify (set_tasks (fun ts => delete task_id ts))
  end.


(** *** [consume_task] (lines 209-226) *)

Definition not_pending (task_id : string) : exn :=
  ValueError ("Task " +:+ task_id +:+ " is not in pending status").

Definition consume_task (task_id : string) : M unit :=
  let! task := get_task task_id in
  if negb (String.eqb (Task.status task) "pending") then raise (not_pending task_id)
  else
    update_task task_id
      (TaskUpdate.mk (Some "processing") (Some (Task.state task)) None) ;;
    try_except
      (let! result := (fun s => (_process_task task, s)) in
       update_task task_id
         (TaskUpdate.mk (Some "completed") (Some (Task.state task)) (Some (Some result))) ;;
       ret tt)
      (fun e =>
         update_task task_id
           (TaskUpdate.mk (Some "failed") (Some (Task.state task))
              (Some (Some [("error", exn_msg e)]))) ;;
         ret tt).

End TaskOrchestrationService.

(** [_process_task] as the source has it (lines 228-232). *)
Definition placeholder_process_task (task : TaskRead) : outcome strdict :=
  Ok [("result", "Task processed successfully")].

(** ** Decomposition of [consume_task] and runs of operations *)

Section Runs.

Variable _process_task : TaskRead → outcome strdict.
Variable valid_crontab : string → bool.

(** Lines 210-216: read, guard, store [processing]. *)
Definition consume_task_begin (task_id : string) : M TaskRead :=
  let! task := get_task task_id in
  if negb (String.eqb (Task.status task) "pending") then raise (not_pending task_id)
  else
    update_task task_id
      (TaskUpdate.mk (Some "processing") (Some (Task.state task)) None) ;;
    ret task.

(** Lines 218-226: process, store [completed] or [failed]. *)
Definition consume_task_end (task_id : string) (task : TaskRead) : M unit :=
  try_except
    (let! result := (fun s => (_process_task task, s)) in
     update_task task_id
       (TaskUpdate.mk (Some "completed") (Some (Task.state task)) (Some (Some result))) ;;
     ret tt)
    (fun e =>
       update_task task_id
         (TaskUpdate.mk (Some "failed") (Some (Task.state task))
            (Some (Some [("error", exn_msg e)]))) ;;
       ret tt).

(** A call of one of the operations that write the task table. *)
Inductive op :=
  | OpCreate (new_id : string) (task_create : TaskCreate.t)
  | OpUpdate (task_id : string) (task_update : TaskUpdate.t)
  | OpConsume (task_id : string).

Definition run_op (o : op) (s : service) : service :=
  match o with
  | OpCreate new_id task_create => snd (create_task valid_crontab new_id task_create s)
  | OpUpdate task_id task_update => snd (update_task task_id task_update s)
  | OpConsume task_id => snd (consume_task _process_task task_id s)
  end.

(** The states an operation leaves behind, one per call of [create_task]
    or [update_task] it makes, in order. *)
Definition op_states (o : op) (s : service) : list service :=
  match o with
  | OpConsume task_id =>
      match consume_task_begin task_id s with
      | (Ok task, s1) => [s1; snd (consume_task_end task_id task s1)]
      | (Raise _, s1) => [s1]
      end
  | _ => [run_op o s]
  end.

Fixpoint trace (ops : list op) (s : service) : list service :=
  match ops with
  | [] => []
  | o :: ops' => (op_states o s ++ trace ops' (run_op o s))%list
  end.

(** An [update_task] whose partial leaves [status] unset; the other
    operations qualify as they are. *)
Definition keeps_status (o : op) : Prop :=
  match o with
  | OpUpdate _ task_update => TaskUpdate.status task_update = None
  | _ => True
  end.

End Runs.

(** The edges of the state machine of [Task.status]. *)
Definition transition (a b : string) : Prop :=
  (a = "pending" ∧ b = "processing") ∨
  (a = "processing" ∧ (b = "completed" ∨ b = "failed")).

(** From [s] to [s'] every stored task keeps its status or follows one
    edge, and a task that appears is [pending]. *)
Definition status_step (s s' : service) : Prop :=
  ∀ task_id : string,
    match tasks s !! task_id with
    | Some t =>
        ∃ t', tasks s' !! task_id = Some t' ∧
              (Task.status t' = Task.status t ∨ transition (Task.status t) (Task.status t'))
    | None =>
        ∀ t', tasks s' !! task_id = Some t' → Task.status t' = "pending"
    end.

(** [R] relates each element of [a :: l] to the next one. *)
Fixpoint chain {A} (R : A → A → Prop) (a : A) (l : list A) : Prop :=
  match l with
  | [] => True
  | b :: l' => R a b ∧ chain R b l'
  end.

(** ** Content types (content_types.py) *)

(** Python values as they occur in dumped models; floats are IEEE
    binary64 values. *)
#[warnings="-register-all"] Inductive pyval :=
| PNone
| PBool (b : bool)
| PInt (z : Z)
| PFloat (f : SpecFloat.spec_float)
| PStr (s : string)
| PList (l : list pyval)
| PDict (d : list (string * pyval)).

Abbreviation pydict := (list (string * pyval)).

(** Validation of one keyword of a pydantic constructor.  A value that
    already has the type of the field is taken as it is; of the lax
    conversions only [int] to [float] is covered, and the others are turned
    down here.  The constructor raises at the first keyword that fails; the
    messages are short forms of pydantic's. *)
Module Validate.

Definition obind {A B} (c : outcome A) (k : A → outcome B) : outcome B :=
  match c with
  | Ok a => k a
  | Raise e => Raise e
  end.

Definition str (v : pyval) : outcome string :=
  match v with
  | PStr s => Ok s
  | _ => Raise (ValidationError "Input should be a valid string")
  end.

Definition literal (expected : string) (v : pyval) : outcome string :=
  match v with
  | PStr s => if String.eqb s expected then Ok s
              else Raise (ValidationError ("Input should be '" +:+ expected +:+ "'"))
  | _ => Raise (ValidationError ("Input should be '" +:+ expected +:+ "'"))
  end.

Definition optional {A} (validate : pyval → outcome A) (v : pyval) : outcome (option A) :=
  match v with
  | PNone => Ok None
  | _ => obind (validate v) (fun a => Ok (Some a))
  end.

Definition int (v : pyval) : outcome Z :=
  match v with
  | PInt z => Ok z
  | _ => Raise (ValidationError "Input should be a valid integer")
  end.

(** [float(z)], rounded to nearest even; out of range it does not exist. *)
Definition float_of_int (z : Z) : outcome SpecFloat.spec_float :=
  match SpecFloat.binary_normalize 53%Z 1024%Z z 0%Z false with
  | SpecFloat.S754_infinity _ => Raise (ValidationError "Input should be a finite number")
  | f => Ok f
  end.

Definition float (v : pyval) : outcome SpecFloat.spec_float :=
  match v with
  | PFloat f => Ok f
  | PInt z => float_of_int z
  | _ => Raise (ValidationError "Input should be a valid number")
  end.

Fixpoint each {A} (validate : pyval → outcome A) (l : list pyval) : outcome (list A) :=
  match l with
  | [] => Ok []
  | v :: l' =>
      obind (validate v) (fun a => obind (each validate l') (fun l'' => Ok (a :: l'')))
  end.

Definition list_of {A} (validate : pyval → outcome A) (v : pyval) : outcome (list A) :=
  match v with
  | PList l => each validate l
  | _ => Raise (ValidationError "Input should be a valid list")
  end.

(** [dict[str, Any]] *)
Definition dict_any (v : pyval) : outcome pydict :=
  match v with
  | PDict d => Ok d
  | _ => Raise (ValidationError "Input should be a valid dictionary")
  end.

(** [Any | None] *)
Definition any (v : pyval) : outcome pyval := Ok v.

(** A required keyword. *)
Definition required {A} (data : pydict) (key : string)
    (validate : pyval → outcome A) : outcome A :=
  match dict_get data key with
  | Some v => validate v
  | None => Raise (ValidationError (key +:+ ": Field required"))
  end.

(** A keyword with a default; the default is stored without validation. *)
Definition with_default {A} (data : pydict) (key : string) (default : A)
    (validate : pyval → outcome A) : outcome A :=
  match dict_get data key with
  | Some v => validate v
  | None => Ok default
  end.

(** [HeaderDict], a total [TypedDict]: both keys are required, other
    keys are dropped. *)
Definition HeaderDict (v : pyval) : outcome pydict :=
  match v with
  | PDict d =>
      obind (required d "title" str) (fun title =>
      obind (required d "icon" str) (fun icon =>
      Ok [("title", PStr title); ("icon", PStr icon)]))
  | _ => Raise (ValidationError "Input should be a valid dictionary")
  end.

End Validate.

Notation "'do' x '<-' c ';' k" := (Validate.obind c (fun x => k))
  (at level 10, x name, c at level 100, k at level 200).

Definition dump_opt {A} (dump : A → pyval) (o : option A) : pyval :=
  match o with
  | Some a => dump a
  | None => PNone
  end.

Module BaseContent.
Record t := mk {
  type : string;
  duration : option SpecFloat.spec_float;
  header : pydict
}.

Definition to_dict (c : t) : pydict :=
  [("type", PStr (type c)); ("duration", dump_opt PFloat (duration c));
   ("header", PDict (header c))].

Definition from_dict (data : pydict) : outcome t :=
  do type <- Validate.required data "type" Validate.str;
  do duration <- Validate.with_default data "duration" None (Validate.optional Validate.float);
  do header <- Validate.with_default data "header" [] Validate.HeaderDict;
  Ok (mk type duration header).
End BaseContent.

Module ErrorContent.
Record t := mk {
  type : string;
  duration : option SpecFloat.spec_float;
  header : pydict;
  component : option string;
  field : option string;
  reason : option string;
  solution : option string;
  traceback : option string
}.

Definition to_dict (c : t) : pydict :=
  [("type", PStr (type c)); ("duration", dump_opt PFloat (duration c));
   ("header", PDict (header c)); ("component", dump_opt PStr (component c));
   ("field", dump_opt PStr (field c)); ("reason", dump_opt PStr (reason c));
   ("solution", dump_opt PStr (solution c)); ("traceback", dump_opt PStr (traceback c))].

Definition from_dict (data : pydict) : outcome t :=
  do type <- Validate.with_default data "type" "error" (Validate.literal "error");
  do duration <- Validate.with_default data "duration" None (Validate.optional Validate.float);
  do header <- Validate.with_default data "header" [] Validate.HeaderDict;
  do component <- Validate.with_default data "component" None (Validate.optional Validate.str);
  do field <- Validate.with_default data "field" None (Validate.optional Validate.str);
  do reason <- Validate.with_default data "reason" None (Validate.optional Validate.str);
  do solution <- Validate.with_default data "solution" None (Validate.optional Validate.str);
  do traceback <- Validate.with_default data "traceback" None (Validate.optional Validate.str);
  Ok (mk type duration header component field reason solution traceback).
End ErrorContent.

Module TextContent.
Record t := mk {
  type : string;
  duration : option Z;
  header : pydict;
  text : string
}.

Definition to_dict (c : t) : pydict :=
  [("type", PStr (type c)); ("duration", dump_opt PInt (duration c));
   ("header", PDict (header c)); ("text", PStr (text c))].

Definition from_dict (data : pydict) : outcome t :=
  do type <- Validate.with_default data "type" "text" (Validate.literal "text");
  do duration <- Validate.with_default data "duration" None (Validate.optional Validate.int);
  do header <- Validate.with_default data "header" [] Validate.HeaderDict;
  do text <- Validate.required data "text" Validate.str;
  Ok (mk type duration header text).
End TextContent.

Module MediaContent.
Record t := mk {
  type : string;
  duration : option SpecFloat.spec_float;
  header : pydict;
  urls : list string;
  caption : option string
}.

Definition to_dict (c : t) : pydict :=
  [("type", PStr (type c)); ("duration", dump_opt PFloat (duration c));
   ("header", PDict (header c)); ("urls", PList (List.map PStr (urls c)));
   ("caption", dump_opt PStr (caption c))].

Definition from_dict (data : pydict) : outcome t :=
  do type <- Validate.with_default data "type" "media" (Validate.literal "media");
  do duration <- Validate.with_default data "duration" None (Validate.optional Validate.float);
  do header <- Validate.with_default data "header" [] Validate.HeaderDict;
  do urls <- Validate.required data "urls" (Validate.list_of Validate.str);
  do caption <- Validate.with_default data "caption" None (Validate.optional Validate.str);
  Ok (mk type duration header urls caption).
End MediaContent.

Module JSONContent.
Record t := mk {
  type : string;
  duration : option SpecFloat.spec_float;
  header : pydict;
  data : pydict
}.

Definition to_dict (c : t) : pydict :=
  [("type", PStr (type c)); ("duration", dump_opt PFloat (duration c));
   ("header", PDict (header c)); ("data", PDict (data c))].

Definition from_dict (kwargs : pydict) : outcome t :=
  do type <- Validate.with_default kwargs "type" "json" (Validate.literal "json");
  do duration <- Validate.with_default kwargs "duration" None (Validate.optional Validate.float);
  do header <- Validate.with_default kwargs "header" [] Validate.HeaderDict;
  do data <- Validate.required kwargs "data" Validate.dict_any;
  Ok (mk type duration header data).
End JSONContent.

Module CodeContent.
Record t := mk {
  type : string;
  duration : option SpecFloat.spec_float;
  header : pydict;
  code : string;
  language : string;
  title : option string
}.

Definition to_dict (c : t) : pydict :=
  [("type", PStr (type c)); ("duration", dump_opt PFloat (duration c));
   ("header", PDict (header c)); ("code", PStr (code c));
   ("language", PStr (language c)); ("title", dump_opt PStr (title c))].

Definition from_dict (data : pydict) : outcome t :=
  do type <- Validate.with_default data "type" "code" (Validate.literal "code");
  do duration <- Validate.with_default data "duration" None (Validate.optional Validate.float);
  do header <- Validate.with_default data "header" [] Validate.HeaderDict;
  do code <- Validate.required data "code" Validate.str;
  do language <- Validate.required data "language" Validate.str;
  do title <- Validate.with_default data "title" None (Validate.optional Validate.str);
  Ok (mk type duration header code language title).
End CodeContent.

Module ToolContent.
Record t := mk {
  type : string;
  duration : option Z;
  header : pydict;
  name : option string;
  tool_input : pydict;
  output : pyval;
  error : pyval
}.

(** [model_dump] writes field names, not aliases. *)
Definition to_dict (c : t) : pydict :=
  [("type", PStr (type c)); ("duration", dump_opt PInt (duration c));
   ("header", PDict (header c)); ("name", dump_opt PStr (name c));
   ("tool_input", PDict (tool_input c)); ("output", output c); ("error", error c)].

(** [populate_by_name]: [tool_input] is read under its alias [input] or,
    failing that, under its own name. *)
Definition tool_input_keyword (data : pydict) : string :=
  match dict_get data "input" with
  | Some _ => "input"
  | None => "tool_input"
  end.

Definition from_dict (data : pydict) : outcome t :=
  do type <- Validate.with_default data "type" "tool_use" (Validate.literal "tool_use");
  do duration <- Validate.with_default data "duration" None (Validate.optional Validate.int);
  do header <- Validate.with_default data "header" [] Validate.HeaderDict;
  do name <- Validate.with_default data "name" None (Validate.optional Validate.str);
  do tool_input <- Validate.with_default data (tool_input_keyword data) [] Validate.dict_any;
  do output <- Validate.with_default data "output" PNone Validate.any;
  do error <- Validate.with_default data "error" PNone Validate.any;
  Ok (mk type duration header name tool_input output error).
End ToolContent.

(** ** Type hints as text (interface/custom/utils.py) *)

Module TypeHints.

(** [s[n:]] *)
Fixpoint drop (n : nat) (s : string) : string :=
  match n, s with
  | S n', String _ s' => drop n' s'
  | _, _ => s
  end.

(** The first of [alternatives] that [s] starts with, cut off [s]. *)
Fixpoint strip_one_of (alternatives : list string) (s : string) : option string :=
  match alternatives with
  | [] => None
  | a :: alternatives' =>
      if PyStr.startswith s a then Some (drop (String.length a) s)
      else strip_one_of alternatives' s
  end.

(** One character after the other, each in one of its spellings. *)
Fixpoint strip_sequence (letters : list (list string)) (s : string) : option string :=
  match letters with
  | [] => Some s
  | alternatives :: letters' =>
      match strip_one_of alternatives s with
      | Some s' => strip_sequence letters' s'
      | None => None
      end
  end.

Definition utf8_1 (a : ascii) : string := String a EmptyString.
Definition utf8_2 (a b : ascii) : string := String a (String b EmptyString).
Definition utf8_3 (a b c : ascii) : string := String a (String b (String c EmptyString)).

(** The characters the letters of [list] and the bracket match under
    [re.IGNORECASE]:
    both cases of each letter and, as the [re] module folds them, U+0130
    and U+0131 for [i] and U+017F for [s], in their UTF-8 form. *)
Definition list_bracket : list (list string) :=
  [ ["l"; "L"];
    ["i"; "I"; utf8_2 "196" "176"; utf8_2 "196" "177"];
    ["s"; "S"; utf8_2 "197" "191"];
    ["t"; "T"];
    ["["] ].

(** The text up to the first line feed: what [.*] can run over. *)
Fixpoint first_line (s : string) : string :=
  match s with
  | EmptyString => EmptyString
  | String c s' => if Ascii.eqb c "010" then EmptyString else String c (first_line s')
  end.

(** [extract_inner_type] (lines 6-12).  The pattern, matched at the start
    of the argument, is: [list] in any case, an opening bracket, a greedy
    group of characters other than line feeds, a closing bracket.  The
    result is the group, or the argument when there is no match. *)
Definition extract_inner_type (return_type : string) : string :=
  match strip_sequence list_bracket return_type with
  | Some rest =>
      match PyStr.cut_last "]" (first_line rest) with
      | Some (inner, _) => inner
      | None => return_type
      end
  | None => return_type
  end.

(** [s.replace(old, empty)] for a non-empty [old]: the occurrences of [old]
    are dropped from left to right, without overlap; [skip] counts the
    characters of a dropped occurrence still to pass. *)
Fixpoint remove_from (old : string) (skip : nat) (s : string) : string :=
  match s with
  | EmptyString => EmptyString
  | String c s' =>
      match skip with
      | S k => remove_from old k s'
      | O =>
          if PyStr.startswith s old
          then remove_from old (Nat.pred (String.length old)) s'
          else String c (remove_from old O s')
      end
  end.

Definition remove (old s : string) : string := remove_from old O s.

(** [s.split(c)] for a one-character separator. *)
Fixpoint split (c : ascii) (s : string) : list string :=
  match s with
  | EmptyString => [EmptyString]
  | String d s' =>
      if Ascii.eqb c d then EmptyString :: split c s'
      else match split c s' with
           | h :: t => String d h :: t
           | [] => [String d EmptyString]
           end
  end.

(** The characters [str.strip()] removes, in their UTF-8 form: U+0009 to
    U+000D, U+001C to U+0020, U+0085, U+00A0, U+1680, U+2000 to U+200A,
    U+2028, U+2029, U+202F, U+205F and U+3000. *)
Definition whitespace : list string :=
  [ utf8_1 "009"; utf8_1 "010"; utf8_1 "011"; utf8_1 "012"; utf8_1 "013";
    utf8_1 "028"; utf8_1 "029"; utf8_1 "030"; utf8_1 "031"; utf8_1 " ";
    utf8_2 "194" "133"; utf8_2 "194" "160";
    utf8_3 "225" "154" "128";
    utf8_3 "226" "128" "128"; utf8_3 "226" "128" "129"; utf8_3 "226" "128" "130";
    utf8_3 "226" "128" "131"; utf8_3 "226" "128" "132"; utf8_3 "226" "128" "133";
    utf8_3 "226" "128" "134"; utf8_3 "226" "128" "135"; utf8_3 "226" "128" "136";
    utf8_3 "226" "128" "137"; utf8_3 "226" "128" "138";
    utf8_3 "226" "128" "168"; utf8_3 "226" "128" "169"; utf8_3 "226" "128" "175";
    utf8_3 "226" "129" "159"; utf8_3 "227" "128" "128" ].

(** [s.lstrip()] with respect to [spaces]; [fuel] bounds the characters
    removed and the length of [s] is enough. *)
Fixpoint lstrip_with (spaces : list string) (fuel : nat) (s : string) : string :=
  match fuel with
  | O => s
  | S fuel' =>
      match strip_one_of spaces s with
      | Some s' => lstrip_with spaces fuel' s'
      | None => s
      end
  end.

Fixpoint rev_string (s : string) : string :=
  match s with
  | EmptyString => EmptyString
  | String c s' => rev_string s' +:+ String c EmptyString
  end.

Definition lstrip (s : string) : string :=
  lstrip_with whitespace (String.length s) s.

(** [s.rstrip()]: the same from the end. *)
Definition rstrip (s : string) : string :=
  rev_string
    (lstrip_with (List.map rev_string whitespace) (String.length s) (rev_string s)).

(** [s.strip()] *)
Definition strip (s : string) : string := rstrip (lstrip s).

(** [extract_union_types] (lines 32-40). *)
Definition extract_union_types (return_type : string) : list string :=
  let return_type := remove "]" (remove "[" (remove "Union" return_type)) in
  let return_types := split "," return_type in
  List.map strip return_types.

End TypeHints.

(** ** Definitions used in the statements *)

(** The notification [_add_notification] builds for a recipient. *)
Definition snapshot (task : TaskRead) (event_type flow_id : string) : TaskNotification.t :=
  TaskNotification.mk (Task.id task) flow_id event_type
    (Task.category task) (Task.state task) (Task.status task).

(** The rows the query of [_notify] returns, in table order. *)
Definition selected_subscriptions (task : TaskRead) (subs : list Subscription.t)
  : list Subscription.t :=
  List.filter (fun sub => Sql.selected (notify_filter task sub)) subs.

(** The entries one emission appends: author, assignee, then the selected
    subscriptions. *)
Definition notify_entries (task : TaskRead) (event_type : string)
    (subs : list Subscription.t) : list TaskNotification.t :=
  snapshot task event_type (Task.author_id task)
  :: snapshot task event_type (Task.assignee_id task)
  :: List.map (fun sub => snapshot task event_type (Subscription.flow_id sub))
       (selected_subscriptions task subs).

Definition enqueue (ns : list TaskNotification.t) (s : service) : service :=
  set_notification_queue (fun q => (q ++ List.map TaskNotification.model_dump ns)%list) s.

(** The row [update_task] leaves for [task] under the partial [u]. *)
Definition updated (task : Task.t) (u : TaskUpdate.t) : Task.t :=
  List.fold_left setattr (model_dump_exclude_unset u) task.

(** The table after the commits of [update_task]: none for an empty dump. *)
Definition committed (task_id : string) (task : Task.t) (u : TaskUpdate.t)
    (ts : gmap string Task.t) : gmap string Task.t :=
  match model_dump_exclude_unset u with
  | [] => ts
  | _ => <[task_id := updated task u]> ts
  end.

(** The partials of the three updates of [consume_task]. *)
Definition to_processing (task : Task.t) : TaskUpdate.t :=
  TaskUpdate.mk (Some "processing") (Some (Task.state task)) None.
Definition to_completed (task : Task.t) (result : strdict) : TaskUpdate.t :=
  TaskUpdate.mk (Some "completed") (Some (Task.state task)) (Some (Some result)).
Definition to_failed (task : Task.t) (e : exn) : TaskUpdate.t :=
  TaskUpdate.mk (Some "failed") (Some (Task.state task)) (Some (Some [("error", exn_msg e)])).


(** The test of the second branch of [add_tasks_to_database_url]. *)
Definition server_scheme (url : string) : bool :=
  existsb (PyStr.startswith url) ["postgresql://"; "mysql://"].

(** *** Sample values *)

Definition sample_task : Task.t :=
  Task.mk "task-1" "flow-1" "flow-a" "flow-b" "email" "draft" "pending" None None.


Definition completed_task : Task.t :=
  Task.mk "task-1" "flow-1" "flow-a" "flow-b" "email" "draft" "completed" None None.

Definition category_only_subscription : Subscription.t :=
  Subscription.mk "sub-1" "flow-s" "task_created" (Some "email") None.

Definition created_only_subscription : Subscription.t :=
  Subscription.mk "sub-2" "flow-s" "task_created" None None.

Definition service_with (ts : list (string * Task.t)) (subs : list Subscription.t) : service :=
  mkService (list_to_map ts) subs [] ∅.


Definition failing_process_task (task : TaskRead) : outcome strdict :=
  Raise (Exn "RuntimeError" "mail server unreachable").

(** A crontab parser that accepts every expression. *)
Definition accept_crontab (expr : string) : bool := true.

(** A crontab parser that turns every expression down. *)
Definition reject_crontab (expr : string) : bool := false.

Definition hourly_task_create : TaskCreate.t :=
  TaskCreate.mk "flow-1" "flow-a" "flow-b" "email" "draft" (Some "0 * * * *").

(** Every queued entry is the dump of a notification, as
    [_add_notification], the only writer of the queue, leaves it. *)
Definition dumped_queue (s : service) : Prop :=
  ∃ ns : list TaskNotification.t,
    notification_queue s = List.map TaskNotification.model_dump ns.

(** [s'] has the queue of [s] followed by dumped notifications. *)
Definition queue_grows (s s' : service) : Prop :=
  ∃ ns : list TaskNotification.t,
    notification_queue s'
    = (notification_queue s ++ List.map TaskNotification.model_dump ns)%list.

(** A header as [HeaderDict] validates it: both keys, with strings. *)
Definition complete_header (h : pydict) : Prop :=
  ∃ title icon : string, h = [("title", PStr title); ("icon", PStr icon)].

Definition sample_header : pydict := [("title", PStr "Failure"); ("icon", PStr "alert")].

(** [ErrorContent()]: every field at its default, the header [{}]. *)
Definition default_error_content : ErrorContent.t :=
  ErrorContent.mk "error" None [] None None None None None.

(** * Properties *)

(** ** The job-store URL *)

Section StringCuts.

Variable c : ascii.

Lemma contains_app (a b : string) :
  PyStr.contains c (a +:+ b) = PyStr.contains c a || PyStr.contains c b.
Proof.
  induction a as [|d a IH]; simpl; [reflexivity|].
  destruct (Ascii.eqb c d); [reflexivity | exact IH].
Qed.

Lemma cut_last_absent (s : string) :
  PyStr.contains c s = false → PyStr.cut_last c s = None.
Proof.
  induction s as [|d s IH]; simpl; [reflexivity|].
  destruct (Ascii.eqb c d); [discriminate|].
  intros H. rewrite (IH H). reflexivity.
Qed.

Lemma cut_last_app (base ext : string) :
  PyStr.contains c ext = false →
  PyStr.cut_last c (base +:+ String c ext) = Some (base, ext).
Proof.
  intros Hext. induction base as [|d base IH]; simpl.
  - rewrite (cut_last_absent _ Hext), Ascii.eqb_refl. reflexivity.
  - rewrite IH. reflexivity.
Qed.

Lemma cut_first_absent (s : string) :
  PyStr.contains c s = false → PyStr.cut_first c s = None.
Proof.
  induction s as [|d s IH]; simpl; [reflexivity|].
  destruct (Ascii.eqb c d); [discriminate|].
  intros H. rewrite (IH H). reflexivity.
Qed.

Lemma cut_first_app (base rest : string) :
  PyStr.contains c base = false →
  PyStr.cut_first c (base +:+ String c rest) = Some (base, rest).
Proof.
  induction base as [|d base IH]; simpl.
  - intros _. rewrite Ascii.eqb_refl. reflexivity.
  - destruct (Ascii.eqb c d); [discriminate|].
    intros H. rewrite (IH H). reflexivity.
Qed.

End StringCuts.

Lemma startswith_app (s x p : string) :
  PyStr.startswith s p = true → PyStr.startswith (s +:+ x) p = true.
Proof.
  revert s. induction p as [|a p IH]; intros s; simpl; [reflexivity|].
  destruct s as [|d s]; simpl; [discriminate|].
  destruct (Ascii.eqb a d); [apply IH | discriminate].
Qed.

(** X17. A sqlite URL that ends in a dot and a dot-free suffix gets
    [-tasks] before that dot. *)
Lemma sqlite_url_with_dot (base ext : string) :
  PyStr.startswith base "sqlite://" = true →
  PyStr.contains "." ext = false →
  add_tasks_to_database_url (base +:+ "." +:+ ext) = base +:+ "-tasks." +:+ ext.
Proof.
  intros Hs Hext. unfold add_tasks_to_database_url.
  rewrite (startswith_app _ _ _ Hs).
  unfold PyStr.rsplit1. change ("." +:+ ext) with (String "." ext).
  rewrite (cut_last_app _ _ _ Hext). reflexivity.
Qed.

(** A sqlite URL without any dot gets [-tasks] at its end. *)
Lemma sqlite_url_without_dot (url : string) :
  PyStr.startswith url "sqlite://" = true →
  PyStr.contains "." url = false →
  add_tasks_to_database_url url = url +:+ "-tasks".
Proof.
  intros Hs Hdot. unfold add_tasks_to_database_url, PyStr.rsplit1.
  rewrite Hs, (cut_last_absent _ _ Hdot). reflexivity.
Qed.

Lemma server_scheme_not_sqlite (url : string) :
  server_scheme url = true → PyStr.startswith url "sqlite://" = false.
Proof.
  unfold server_scheme. destruct url as [|a url]; [reflexivity|].
  intros H. cbn [PyStr.startswith].
  destruct (Ascii.eqb "s" a) eqn:E; [|reflexivity].
  apply Ascii.eqb_eq in E. subst a. cbn in H. discriminate H.
Qed.

Lemma server_scheme_app (url x : string) :
  server_scheme url = true → server_scheme (url +:+ x) = true.
Proof.
  unfold server_scheme. cbn [existsb]. rewrite !orb_false_r.
  intros H. apply orb_true_iff in H. apply orb_true_iff.
  destruct H as [H|H]; [left | right]; now apply startswith_app.
Qed.

(** X18. A postgresql or mysql URL with a query string gets [_tasks]
    before its first question mark, and the query string is kept. *)
Lemma server_url_with_query (base params : string) :
  server_scheme base = true →
  PyStr.contains "?" base = false →
  add_tasks_to_database_url (base +:+ "?" +:+ params) = base +:+ "_tasks?" +:+ params.
Proof.
  intros Hs Hq. unfold add_tasks_to_database_url.
  pose proof (server_scheme_app _ ("?" +:+ params) Hs) as Hs'.
  rewrite (server_scheme_not_sqlite _ Hs').
  fold (server_scheme (base +:+ "?" +:+ params)). rewrite Hs'.
  rewrite contains_app. simpl. rewrite orb_true_r.
  unfold PyStr.split1. change ("?" +:+ params) with (String "?" params).
  rewrite (cut_first_app _ _ _ Hq). reflexivity.
Qed.

(** A postgresql or mysql URL without a query string gets [_tasks]
    at its end. *)
Lemma server_url_without_query (url : string) :
  server_scheme url = true →
  PyStr.contains "?" url = false →
  add_tasks_to_database_url url = url +:+ "_tasks".
Proof.
  intros Hs Hq. unfold add_tasks_to_database_url.
  rewrite (server_scheme_not_sqlite _ Hs).
  fold (server_scheme url). rewrite Hs, Hq. reflexivity.
Qed.

(** A URL of any other scheme, a dialect with a driver such as
    [postgresql+psycopg2://] included, is returned as it is. *)
Lemma other_url_unchanged (url : string) :
  PyStr.startswith url "sqlite://" = false →
  server_scheme url = false →
  add_tasks_to_database_url url = url.
Proof.
  intros Hs Hp. unfold add_tasks_to_database_url.
  rewrite Hs. fold (server_scheme url). rewrite Hp. reflexivity.
Qed.

Example url_sqlite_default :
  add_tasks_to_database_url "sqlite:///./langflow.db" = "sqlite:///./langflow-tasks.db".
Proof. reflexivity. Qed.

Example url_postgres_query :
  add_tasks_to_database_url "postgresql://u:p@host/db?sslmode=require"
  = "postgresql://u:p@host/db_tasks?sslmode=require".
Proof. reflexivity. Qed.

(** C9. For the sqlite URL [sqlite:///./langflow], whose file has no
    extension, the derived URL is not the original with [-tasks] at its
    end: the suffix lands before the dot of the directory part. *)
Theorem sqlite_url_dotted_directory :
  add_tasks_to_database_url "sqlite:///./langflow" = "sqlite:///-tasks./langflow"
  ∧ add_tasks_to_database_url "sqlite:///./langflow" ≠ "sqlite:///./langflow" +:+ "-tasks".
Proof. split; [reflexivity | discriminate]. Qed.

(** ** The notification fan-out *)

Lemma enqueue_nil (s : service) : enqueue [] s = s.
Proof. destruct s. unfold enqueue, set_notification_queue. simpl. now rewrite app_nil_r. Qed.

Lemma enqueue_enqueue (ns ms : list TaskNotification.t) (s : service) :
  enqueue ms (enqueue ns s) = enqueue (ns ++ ms) s.
Proof.
  destruct s. unfold enqueue, set_notification_queue. simpl.
  now rewrite List.map_app, List.app_assoc.
Qed.

Lemma _add_notification_enqueue (task : TaskRead) (event_type flow_id : string) (s : service) :
  _add_notification task event_type flow_id s
  = (Ok tt, enqueue [snapshot task event_type flow_id] s).
Proof. reflexivity. Qed.

Lemma for_each_add_notification (task : TaskRead) (event_type : string)
    (subs : list Subscription.t) (s : service) :
  for_each subs (fun subscription =>
    _add_notification task event_type (Subscription.flow_id subscription)) s
  = (Ok tt,
     enqueue (List.map (fun sub => snapshot task event_type (Subscription.flow_id sub)) subs) s).
Proof.
  revert s. induction subs as [|sub subs IH]; intros s.
  - simpl. now rewrite enqueue_nil.
  - cbn [for_each]. unfold bind at 1. rewrite _add_notification_enqueue.
    rewrite IH, enqueue_enqueue. reflexivity.
Qed.

Lemma enqueue_keeps_tables (ns : list TaskNotification.t) (s : service) :
  tasks (enqueue ns s) = tasks s
  ∧ subscriptions (enqueue ns s) = subscriptions s
  ∧ jobs (enqueue ns s) = jobs s.
Proof. destruct s. repeat split. Qed.

Lemma _notify_enqueue (task : TaskRead) (event_type : string) (s : service) :
  _notify task event_type s
  = (Ok tt, enqueue (notify_entries task event_type (subscriptions s)) s).
Proof.
  unfold _notify, bind. rewrite !_add_notification_enqueue.
  unfold select_subscriptions, gets.
  rewrite for_each_add_notification, !enqueue_enqueue.
  destruct s; reflexivity.
Qed.

(** The query selects a row exactly when both filters equal the task's
    fields or both are NULL. *)
Lemma notify_filter_selected (task : TaskRead) (sub : Subscription.t) :
  Sql.selected (notify_filter task sub) = true ↔
    (Subscription.category sub = Some (Task.category task)
     ∧ Subscription.state sub = Some (Task.state task))
    ∨ (Subscription.category sub = None ∧ Subscription.state sub = None).
Proof.
  unfold notify_filter.
  destruct (Subscription.category sub) as [c|], (Subscription.state sub) as [st|]; simpl.
  - destruct (String.eqb_spec c (Task.category task)) as [->|Hc],
             (String.eqb_spec st (Task.state task)) as [->|Hs]; simpl;
      split; intros H; try discriminate; auto;
      destruct H as [[H1 H2]|[H1 H2]]; congruence.
  - destruct (String.eqb c (Task.category task)); simpl;
      split; intros H; try discriminate;
      destruct H as [[H1 H2]|[H1 H2]]; congruence.
  - destruct (String.eqb st (Task.state task)); simpl;
      split; intros H; try discriminate;
      destruct H as [[H1 H2]|[H1 H2]]; congruence.
  - split; auto.
Qed.

(** A subscription without filters is selected for every task. *)
Lemma wildcard_subscription_selected (task : TaskRead) (sub : Subscription.t) :
  Subscription.category sub = None → Subscription.state sub = None →
  Sql.selected (notify_filter task sub) = true.
Proof. intros Hc Hs. apply notify_filter_selected. now right. Qed.

(** A subscription with one filter set and the other NULL is selected for
    no task. *)
Lemma single_filter_never_selected (task : TaskRead) (sub : Subscription.t) :
  (is_Some (Subscription.category sub) ∧ Subscription.state sub = None)
  ∨ (Subscription.category sub = None ∧ is_Some (Subscription.state sub)) →
  Sql.selected (notify_filter task sub) = false.
Proof.
  intros H. apply not_true_is_false. rewrite notify_filter_selected.
  destruct H as [[[c Hc] Hs]|[Hc [st Hs]]]; intros [[H1 H2]|[H1 H2]]; congruence.
Qed.

(** C1. A subscription whose only filter is [category = "email"] is not
    selected for a task of category [email]: its NULL state column makes
    the first disjunct of the query NULL and the second one false, and the
    emission queues the entries of author and assignee alone. *)
Theorem category_only_subscription_not_selected :
  notify_filter sample_task category_only_subscription = None
  ∧ selected_subscriptions sample_task [category_only_subscription] = []
  ∧ notification_queue
      (snd (_notify sample_task "task_created"
              (service_with [("task-1", sample_task)] [category_only_subscription])))
    = List.map TaskNotification.model_dump
        [snapshot sample_task "task_created" "flow-a";
         snapshot sample_task "task_created" "flow-b"].
Proof. repeat split. Qed.

(** C2. A subscription registered for [task_created] receives an entry
    when [task_updated] is emitted: the query of [_notify] does not look
    at the event type of a subscription. *)
Theorem other_event_subscription_notified :
  Subscription.event_type created_only_subscription = "task_created"
  ∧ notification_queue
      (snd (_notify sample_task "task_updated"
              (service_with [("task-1", sample_task)] [created_only_subscription])))
    = List.map TaskNotification.model_dump
        [snapshot sample_task "task_updated" "flow-a";
         snapshot sample_task "task_updated" "flow-b";
         snapshot sample_task "task_updated" "flow-s"].
Proof. repeat split. Qed.

(** The event type plays no part in the selection. *)
Lemma notify_entries_any_event (task : TaskRead) (e1 e2 : string) (subs : list Subscription.t) :
  List.map TaskNotification.flow_id (notify_entries task e1 subs)
  = List.map TaskNotification.flow_id (notify_entries task e2 subs).
Proof.
  unfold notify_entries. simpl. do 2 f_equal.
  rewrite !List.map_map. reflexivity.
Qed.



(** ** Draining the queue *)

Lemma of_dict_model_dump (n : TaskNotification.t) :
  TaskNotification.of_dict (TaskNotification.model_dump n) = Ok n.
Proof. destruct n. reflexivity. Qed.

Lemma drain_dumped (ns acc : list TaskNotification.t) :
  drain (List.map TaskNotification.model_dump ns) acc = (Ok (acc ++ ns)%list, []).
Proof.
  revert acc. induction ns as [|n ns IH]; intros acc.
  - simpl. now rewrite app_nil_r.
  - cbn [List.map drain]. rewrite of_dict_model_dump, IH, <- List.app_assoc. reflexivity.
Qed.

(** C7. On a queue holding the dumps of [ns], oldest first,
    [get_notifications] returns [ns] in that order and leaves the queue
    empty; on the empty queue it returns the empty list and leaves the
    service as it is, so a second call in a row returns the empty list. *)
Theorem get_notifications_drains_in_order
    (ts : gmap string Task.t) (subs : list Subscription.t) (js : gmap string trigger)
    (ns : list TaskNotification.t) :
  get_notifications (mkService ts subs (List.map TaskNotification.model_dump ns) js)
  = (Ok ns, mkService ts subs [] js)
  ∧ get_notifications (mkService ts subs [] js) = (Ok [], mkService ts subs [] js).
Proof.
  unfold get_notifications, set_notification_queue. cbn [notification_queue].
  rewrite drain_dumped. split; reflexivity.
Qed.

(** X14. After an emission, [get_notifications] returns what was queued
    before followed by the entries of the emission (author, assignee, then
    the selected subscriptions), and leaves the queue empty. *)
Lemma get_notifications_after_notify (task : TaskRead) (event_type : string)
    (ts : gmap string Task.t) (subs : list Subscription.t) (js : gmap string trigger)
    (ns : list TaskNotification.t) :
  get_notifications
    (snd (_notify task event_type
            (mkService ts subs (List.map TaskNotification.model_dump ns) js)))
  = (Ok (ns ++ notify_entries task event_type subs)%list, mkService ts subs [] js).
Proof.
  rewrite _notify_enqueue. unfold enqueue, set_notification_queue. simpl.
  unfold get_notifications, set_notification_queue. simpl.
  change (TaskNotification.model_dump (snapshot task event_type (Task.author_id task))
          :: TaskNotification.model_dump (snapshot task event_type (Task.assignee_id task))
          :: List.map TaskNotification.model_dump
               (List.map (fun sub => snapshot task event_type (Subscription.flow_id sub))
                  (selected_subscriptions task subs)))
    with (List.map TaskNotification.model_dump (notify_entries task event_type subs)).
  rewrite <- List.map_app, drain_dumped. reflexivity.
Qed.

(** ** [update_task] *)

Lemma set_tasks_set_tasks (f g : gmap string Task.t → gmap string Task.t) (s : service) :
  set_tasks f (set_tasks g s) = set_tasks (fun ts => f (g ts)) s.
Proof. destruct s. reflexivity. Qed.

Lemma set_tasks_id (s : service) : set_tasks (fun ts => ts) s = s.
Proof. destruct s. reflexivity. Qed.

Lemma apply_items_commits (task_id : string) (items : list item) (task : Task.t) (s : service) :
  apply_items task_id items task s
  = (Ok (List.fold_left setattr items task),
     set_tasks (fun ts => match items with
                          | [] => ts
                          | _ => <[task_id := List.fold_left setattr items task]> ts
                          end) s).
Proof.
  revert task s. induction items as [|kv items IH]; intros task s.
  - simpl. unfold ret. now rewrite set_tasks_id.
  - cbn [apply_items List.fold_left]. unfold bind, modify. rewrite IH, set_tasks_set_tasks.
    destruct items as [|kv' items]; [reflexivity|].
    destruct s as [ts subs q js]. unfold set_tasks.
    cbn [tasks subscriptions notification_queue jobs].
    now rewrite insert_insert_eq.
Qed.

Lemma update_task_found (task_id : string) (u : TaskUpdate.t) (s : service) (task : Task.t) :
  tasks s !! task_id = Some task →
  update_task task_id u s
  = (Ok (updated task u),
     enqueue (notify_entries (updated task u) "task_updated" (subscriptions s))
       (set_tasks (committed task_id task u) s)).
Proof.
  intros Hfound. unfold update_task, bind, gets. rewrite Hfound.
  rewrite apply_items_commits, _notify_enqueue. unfold ret.
  unfold committed, updated. destruct s as [ts subs q js].
  destruct (model_dump_exclude_unset u); reflexivity.
Qed.

Lemma update_task_missing (task_id : string) (u : TaskUpdate.t) (s : service) :
  tasks s !! task_id = None →
  update_task task_id u s = (Raise (not_found task_id), s).
Proof. intros Hnone. unfold update_task, bind, gets. rewrite Hnone. reflexivity. Qed.

(** C8. On an existing task, [update_task] with a partial in which no
    field is set returns the stored record, leaves the task table (hence
    every field of the task), the subscriptions and the jobs as they were,
    and appends the [task_updated] entries of one emission to the queue. *)
Theorem update_task_empty_partial (task_id : string) (task : Task.t) (s : service) :
  tasks s !! task_id = Some task →
  update_task task_id TaskUpdate.empty s
  = (Ok task, enqueue (notify_entries task "task_updated" (subscriptions s)) s)
  ∧ tasks (snd (update_task task_id TaskUpdate.empty s)) = tasks s
  ∧ notification_queue (snd (update_task task_id TaskUpdate.empty s))
    = (notification_queue s
       ++ List.map TaskNotification.model_dump
            (notify_entries task "task_updated" (subscriptions s)))%list.
Proof.
  intros Hfound. rewrite (update_task_found _ _ _ _ Hfound).
  unfold committed, updated. cbn [TaskUpdate.empty model_dump_exclude_unset
    TaskUpdate.status TaskUpdate.state TaskUpdate.result List.app List.fold_left].
  rewrite set_tasks_id. destruct s as [ts subs q js]. repeat split.
Qed.

Lemma update_task_empty_partial_witness :
  update_task "task-1" TaskUpdate.empty (service_with [("task-1", sample_task)] [])
  = (Ok sample_task,
     enqueue (notify_entries sample_task "task_updated" [])
       (service_with [("task-1", sample_task)] [])).
Proof.
  apply (update_task_empty_partial "task-1" sample_task
           (service_with [("task-1", sample_task)] [])).
  vm_compute. reflexivity.
Defined.

(** ** [consume_task] *)

Section Consume.

Variable _process_task : TaskRead → outcome strdict.

Lemma get_task_found (task_id : string) (s : service) (task : Task.t) :
  tasks s !! task_id = Some task → get_task task_id s = (Ok task, s).
Proof. intros H. unfold get_task, bind, gets. now rewrite H. Qed.

Lemma get_task_missing (task_id : string) (s : service) :
  tasks s !! task_id = None → get_task task_id s = (Raise (not_found task_id), s).
Proof. intros H. unfold get_task, bind, gets. now rewrite H. Qed.

Lemma consume_task_split (task_id : string) (s : service) :
  consume_task _process_task task_id s
  = bind (consume_task_begin task_id) (consume_task_end _process_task task_id) s.
Proof.
  unfold consume_task, consume_task_begin, consume_task_end, bind.
  destruct (get_task task_id s) as [[task|e] s0]; [|reflexivity].
  destruct (negb (String.eqb (Task.status task) "pending")); [reflexivity|].
  destruct (update_task task_id _ s0) as [[t1|e] s1]; reflexivity.
Qed.

Lemma not_pending_status (task : Task.t) :
  Task.status task ≠ "pending" ↔ negb (String.eqb (Task.status task) "pending") = true.
Proof.
  destruct (String.eqb_spec (Task.status task) "pending") as [E|E]; simpl; split; intros H;
    congruence.
Qed.

(** C4. [consume_task] on a stored task whose status is not [pending]
    raises the not-pending [ValueError] and leaves the whole service state,
    task table and notification queue included, as it was. *)
Theorem consume_task_not_pending (task_id : string) (task : Task.t) (s : service) :
  tasks s !! task_id = Some task →
  Task.status task ≠ "pending" →
  consume_task _process_task task_id s = (Raise (not_pending task_id), s).
Proof.
  intros Hfound Hstatus. unfold consume_task, bind.
  rewrite (get_task_found _ _ _ Hfound).
  apply not_pending_status in Hstatus. rewrite Hstatus. reflexivity.
Qed.

Lemma consume_task_missing (task_id : string) (s : service) :
  tasks s !! task_id = None →
  consume_task _process_task task_id s = (Raise (not_found task_id), s).
Proof.
  intros Hnone. unfold consume_task, bind. now rewrite (get_task_missing _ _ Hnone).
Qed.

Lemma tasks_after_update (task_id : string) (task : Task.t) (u : TaskUpdate.t) (s : service)
    (ns : list TaskNotification.t) :
  tasks (enqueue ns (set_tasks (committed task_id task u) s)) = committed task_id task u (tasks s).
Proof. destruct s. reflexivity. Qed.

Lemma committed_status_set (task_id st : string) (task : Task.t)
    (state : option string) (result : option (option strdict)) (ts : gmap string Task.t) :
  committed task_id task (TaskUpdate.mk (Some st) state result) ts
  = <[task_id := updated task (TaskUpdate.mk (Some st) state result)]> ts.
Proof. reflexivity. Qed.

Lemma consume_task_begin_pending (task_id : string) (task : Task.t) (s : service) :
  tasks s !! task_id = Some task →
  Task.status task = "pending" →
  consume_task_begin task_id s
  = (Ok task,
     enqueue (notify_entries (updated task (to_processing task)) "task_updated" (subscriptions s))
       (set_tasks (fun ts => <[task_id := updated task (to_processing task)]> ts) s)).
Proof.
  intros Hfound Hstatus. unfold consume_task_begin, bind.
  rewrite (get_task_found _ _ _ Hfound).
  assert (E : negb (String.eqb (Task.status task) "pending") = false)
    by (rewrite Hstatus; reflexivity).
  rewrite E. fold (to_processing task).
  rewrite (update_task_found _ _ _ _ Hfound). reflexivity.
Qed.

Lemma consume_task_end_found (task_id : string) (task stored : Task.t) (s : service) :
  tasks s !! task_id = Some stored →
  consume_task_end _process_task task_id task s
  = (Ok tt,
     let u := match _process_task task with
              | Ok result => to_completed task result
              | Raise e => to_failed task e
              end in
     enqueue (notify_entries (updated stored u) "task_updated" (subscriptions s))
       (set_tasks (fun ts => <[task_id := updated stored u]> ts) s)).
Proof.
  intros Hfound. unfold consume_task_end, try_except, bind.
  destruct (_process_task task) as [result|e].
  - fold (to_completed task result). rewrite (update_task_found _ _ _ _ Hfound). reflexivity.
  - fold (to_failed task e). rewrite (update_task_found _ _ _ _ Hfound). reflexivity.
Qed.

End Consume.

Lemma status_after_to_failed (stored task : Task.t) (e : exn) :
  Task.status (updated stored (to_failed task e)) = "failed"
  ∧ Task.result (updated stored (to_failed task e)) = Some [("error", exn_msg e)].
Proof. split; reflexivity. Qed.

Lemma status_after_to_completed (stored task : Task.t) (result : strdict) :
  Task.status (updated stored (to_completed task result)) = "completed"
  ∧ Task.result (updated stored (to_completed task result)) = Some result.
Proof. split; reflexivity. Qed.

Lemma status_after_to_processing (task : Task.t) :
  Task.status (updated task (to_processing task)) = "processing".
Proof. reflexivity. Qed.

Lemma lookup_after_store (task_id : string) (task : Task.t) (s : service)
    (ns : list TaskNotification.t) :
  tasks (enqueue ns (set_tasks (fun ts => <[task_id := task]> ts) s)) !! task_id = Some task.
Proof. destruct s as [ts subs q js]. simpl. apply lookup_insert_eq. Qed.

(** C5. When the processing step raises on a pending task, [consume_task]
    returns normally, and the task is stored with status [failed] and the
    result payload [{"error": str(e)}]. *)
Theorem consume_task_failure_swallowed
    (_process_task : TaskRead → outcome strdict)
    (task_id : string) (task : Task.t) (e : exn) (s : service) :
  tasks s !! task_id = Some task →
  Task.status task = "pending" →
  _process_task task = Raise e →
  ∃ (s' : service) (stored : Task.t),
    consume_task _process_task task_id s = (Ok tt, s')
    ∧ tasks s' !! task_id = Some stored
    ∧ Task.status stored = "failed"
    ∧ Task.result stored = Some [("error", exn_msg e)].
Proof.
  intros Hfound Hpending Hraise.
  rewrite consume_task_split. unfold bind.
  rewrite (consume_task_begin_pending _ _ _ Hfound Hpending).
  rewrite (consume_task_end_found _ _ _ _ _ (lookup_after_store _ _ _ _)).
  rewrite Hraise. cbv zeta.
  eexists _, _. split; [reflexivity|]. split; [apply lookup_after_store|].
  apply status_after_to_failed.
Qed.

Lemma consume_task_failure_swallowed_witness :
  ∃ (s' : service) (stored : Task.t),
    consume_task failing_process_task "task-1" (service_with [("task-1", sample_task)] [])
    = (Ok tt, s')
    ∧ tasks s' !! "task-1" = Some stored
    ∧ Task.status stored = "failed"
    ∧ Task.result stored = Some [("error", "mail server unreachable")].
Proof.
  apply (consume_task_failure_swallowed failing_process_task "task-1" sample_task
           (Exn "RuntimeError" "mail server unreachable")
           (service_with [("task-1", sample_task)] [])).
  - vm_compute. reflexivity.
  - reflexivity.
  - reflexivity.
Defined.

(** X10. When the processing step returns a result on a pending task,
    [consume_task] returns normally and the task is stored [completed]
    with that result. *)
Lemma consume_task_success
    (_process_task : TaskRead → outcome strdict)
    (task_id : string) (task : Task.t) (result : strdict) (s : service) :
  tasks s !! task_id = Some task →
  Task.status task = "pending" →
  _process_task task = Ok result →
  ∃ (s' : service) (stored : Task.t),
    consume_task _process_task task_id s = (Ok tt, s')
    ∧ tasks s' !! task_id = Some stored
    ∧ Task.status stored = "completed"
    ∧ Task.result stored = Some result.
Proof.
  intros Hfound Hpending Hok.
  rewrite consume_task_split. unfold bind.
  rewrite (consume_task_begin_pending _ _ _ Hfound Hpending).
  rewrite (consume_task_end_found _ _ _ _ _ (lookup_after_store _ _ _ _)).
  rewrite Hok. cbv zeta.
  eexists _, _. split; [reflexivity|]. split; [apply lookup_after_store|].
  apply status_after_to_completed.
Qed.

Lemma consume_task_not_pending_witness :
  consume_task placeholder_process_task "task-1"
    (service_with [("task-1", completed_task)] [])
  = (Raise (not_pending "task-1"), service_with [("task-1", completed_task)] []).
Proof.
  apply (consume_task_not_pending placeholder_process_task "task-1" completed_task
           (service_with [("task-1", completed_task)] [])).
  - vm_compute. reflexivity.
  - discriminate.
Defined.

(** ** The status of a task along runs of operations *)

Lemma status_step_same_tasks (s s' : service) : tasks s' = tasks s → status_step s s'.
Proof.
  intros E task_id. rewrite E. destruct (tasks s !! task_id) as [t|] eqn:Hl.
  - exists t. split; [reflexivity | now left].
  - intros t' H. discriminate H.
Qed.

Lemma status_step_store (s s' : service) (task_id : string) (t t' : Task.t) :
  tasks s !! task_id = Some t →
  tasks s' = <[task_id := t']> (tasks s) →
  Task.status t' = Task.status t ∨ transition (Task.status t) (Task.status t') →
  status_step s s'.
Proof.
  intros Hl E Hst k. rewrite E.
  destruct (decide (task_id = k)) as [<-|Hne].
  - rewrite Hl. exists t'. split; [apply lookup_insert_eq | exact Hst].
  - rewrite (lookup_insert_ne _ _ _ _ Hne).
    destruct (tasks s !! k) as [u|]; [|intros u H; discriminate H].
    exists u. split; [reflexivity | now left].
Qed.

Lemma status_step_insert_pending (s s' : service) (task_id : string) (t' : Task.t) :
  tasks s !! task_id = None →
  tasks s' = <[task_id := t']> (tasks s) →
  Task.status t' = "pending" →
  status_step s s'.
Proof.
  intros Hl E Hst k. rewrite E.
  destruct (decide (task_id = k)) as [<-|Hne].
  - rewrite Hl. rewrite lookup_insert_eq. intros u [= <-]. exact Hst.
  - rewrite (lookup_insert_ne _ _ _ _ Hne).
    destruct (tasks s !! k) as [u|]; [|intros u H; discriminate H].
    exists u. split; [reflexivity | now left].
Qed.

Lemma updated_keeps_status (task : Task.t) (u : TaskUpdate.t) :
  TaskUpdate.status u = None → Task.status (updated task u) = Task.status task.
Proof.
  intros H. unfold updated, model_dump_exclude_unset. rewrite H.
  destruct (TaskUpdate.state u), (TaskUpdate.result u); reflexivity.
Qed.

Lemma update_task_status_step (task_id : string) (u : TaskUpdate.t) (s : service) :
  (∀ task, tasks s !! task_id = Some task →
     Task.status (updated task u) = Task.status task
     ∨ transition (Task.status task) (Task.status (updated task u))) →
  status_step s (snd (update_task task_id u s)).
Proof.
  intros Hst. destruct (tasks s !! task_id) as [task|] eqn:Hl.
  - rewrite (update_task_found _ _ _ _ Hl). cbn [snd].
    unfold committed. destruct (model_dump_exclude_unset u) eqn:Hd.
    + apply status_step_same_tasks. destruct s; reflexivity.
    + apply (status_step_store _ _ task_id task (updated task u) Hl).
      * destruct s; reflexivity.
      * apply Hst. reflexivity.
  - rewrite (update_task_missing _ _ _ Hl). now apply status_step_same_tasks.
Qed.

Section RunsOfOperations.

Variable _process_task : TaskRead → outcome strdict.
Variable valid_crontab : string → bool.

Lemma _schedule_task_tasks (task : TaskRead) (s : service) :
  tasks (snd (_schedule_task valid_crontab task s)) = tasks s.
Proof.
  unfold _schedule_task.
  destruct (Task.cron_expression task) as [[|c e]|]; try (destruct s; reflexivity).
  unfold bind, from_crontab. destruct (valid_crontab (String c e)); destruct s; reflexivity.
Qed.

Lemma create_task_tasks (new_id : string) (task_create : TaskCreate.t) (s : service) :
  tasks s !! new_id = None →
  tasks (snd (create_task valid_crontab new_id task_create s))
  = <[new_id := new_task new_id task_create]> (tasks s).
Proof.
  intros Hl. unfold create_task, bind, gets, modify. rewrite Hl, _notify_enqueue.
  match goal with
  | |- context [_schedule_task valid_crontab ?t ?s1] =>
      pose proof (_schedule_task_tasks t s1) as Hs;
      destruct (_schedule_task valid_crontab t s1) as [[[]|e] s2]
  end; unfold ret; cbn [snd] in Hs |- *; rewrite Hs; destruct s; reflexivity.
Qed.

Lemma create_task_duplicate (new_id : string) (task_create : TaskCreate.t) (s : service) :
  is_Some (tasks s !! new_id) →
  snd (create_task valid_crontab new_id task_create s) = s.
Proof.
  intros [t Hl]. unfold create_task, bind, gets. rewrite Hl. reflexivity.
Qed.

Lemma create_task_status_step (new_id : string) (task_create : TaskCreate.t) (s : service) :
  status_step s (snd (create_task valid_crontab new_id task_create s)).
Proof.
  destruct (tasks s !! new_id) as [t|] eqn:Hl.
  - rewrite create_task_duplicate; [|now exists t]. now apply status_step_same_tasks.
  - apply (status_step_insert_pending _ _ new_id (new_task new_id task_create) Hl).
    + now apply create_task_tasks.
    + reflexivity.
Qed.

Lemma consume_task_begin_status_step (task_id : string) (s : service) :
  status_step s (snd (consume_task_begin task_id s)).
Proof.
  destruct (tasks s !! task_id) as [task|] eqn:Hl.
  - destruct (String.eqb_spec (Task.status task) "pending") as [Hp|Hp].
    + rewrite (consume_task_begin_pending _ _ _ Hl Hp). cbn [snd].
      apply (status_step_store _ _ task_id task (updated task (to_processing task)) Hl).
      * destruct s; reflexivity.
      * right. left. split; [exact Hp | reflexivity].
    + unfold consume_task_begin, bind. rewrite (get_task_found _ _ _ Hl).
      apply not_pending_status in Hp. rewrite Hp. now apply status_step_same_tasks.
  - unfold consume_task_begin, bind. rewrite (get_task_missing _ _ Hl).
    now apply status_step_same_tasks.
Qed.

(** When [consume_task_begin] returns, the task is stored [processing]. *)
Lemma consume_task_begin_stores_processing (task_id : string) (s s1 : service) (task : Task.t) :
  consume_task_begin task_id s = (Ok task, s1) →
  ∃ stored, tasks s1 !! task_id = Some stored ∧ Task.status stored = "processing".
Proof.
  destruct (tasks s !! task_id) as [t|] eqn:Hl.
  - destruct (String.eqb_spec (Task.status t) "pending") as [Hp|Hp].
    + rewrite (consume_task_begin_pending _ _ _ Hl Hp). intros [= <- <-].
      eexists. split; [apply lookup_after_store | reflexivity].
    + unfold consume_task_begin, bind. rewrite (get_task_found _ _ _ Hl).
      apply not_pending_status in Hp. rewrite Hp. intros H. discriminate H.
  - unfold consume_task_begin, bind. rewrite (get_task_missing _ _ Hl).
    intros H. discriminate H.
Qed.

Lemma consume_task_end_status_step (task_id : string) (task stored : Task.t) (s : service) :
  tasks s !! task_id = Some stored →
  Task.status stored = "processing" →
  status_step s (snd (consume_task_end _process_task task_id task s)).
Proof.
  intros Hl Hp. rewrite (consume_task_end_found _ _ _ _ _ Hl). cbn [snd]. cbv zeta.
  eapply (status_step_store _ _ task_id stored); [exact Hl | destruct s; reflexivity |].
  right. right. split; [exact Hp|].
  destruct (_process_task task); [left | right]; reflexivity.
Qed.

Lemma op_states_chain (o : op) (s : service) :
  keeps_status o → chain status_step s (op_states _process_task valid_crontab o s).
Proof.
  intros Hk. destruct o as [new_id task_create|task_id u|task_id]; cbn [op_states run_op chain].
  - split; [apply create_task_status_step | exact I].
  - split; [|exact I]. apply update_task_status_step.
    intros task _. left. now apply updated_keeps_status.
  - pose proof (consume_task_begin_status_step task_id s) as Hb.
    destruct (consume_task_begin task_id s) as [[task|e] s1] eqn:E; cbn [snd] in Hb |- *.
    + split; [exact Hb|]. split; [|exact I].
      destruct (consume_task_begin_stores_processing _ _ _ _ E) as [stored [Hl Hp]].
      now apply (consume_task_end_status_step _ _ stored).
    + split; [exact Hb | exact I].
Qed.

Lemma op_states_last (o : op) (s : service) :
  List.last (op_states _process_task valid_crontab o s) s = run_op _process_task valid_crontab o s.
Proof.
  destruct o as [new_id task_create|task_id u|task_id]; cbn [op_states run_op]; try reflexivity.
  rewrite consume_task_split. unfold bind.
  destruct (consume_task_begin task_id s) as [[task|e] s1]; reflexivity.
Qed.

Lemma last_cons_default {A} (x a b : A) (l : list A) :
  List.last (x :: l) a = List.last (x :: l) b.
Proof.
  revert x. induction l as [|y l IH]; intros x; [reflexivity|].
  change (List.last (y :: l) a = List.last (y :: l) b). apply IH.
Qed.

Lemma chain_app {A} (R : A → A → Prop) (a : A) (l1 l2 : list A) :
  chain R a l1 → chain R (List.last l1 a) l2 → chain R a (l1 ++ l2).
Proof.
  revert a. induction l1 as [|b l1 IH]; intros a H1 H2; [exact H2|].
  destruct H1 as [Hab H1]. split; [exact Hab|]. apply IH; [exact H1|].
  destruct l1 as [|c l1]; [exact H2|].
  rewrite (last_cons_default c b a). exact H2.
Qed.

End RunsOfOperations.

(** C3 (as amended). Along any sequence of [create_task], [consume_task]
    and [update_task] calls whose partial leaves [status] unset, from one
    stored state to the next every task keeps its status or follows one of
    the edges pending→processing, processing→completed, processing→failed,
    and a task that appears is [pending]; the states are taken after each
    [create_task] and [update_task] call, those inside [consume_task]
    included. *)
Theorem status_follows_state_machine
    (_process_task : TaskRead → outcome strdict) (valid_crontab : string → bool)
    (ops : list op) (s : service) :
  Forall keeps_status ops →
  chain status_step s (trace _process_task valid_crontab ops s).
Proof.
  intros Hops. revert s. induction Hops as [|o ops Ho Hops IH]; intros s; [exact I|].
  cbn [trace]. apply chain_app.
  - now apply op_states_chain.
  - rewrite op_states_last. apply IH.
Qed.

Lemma status_follows_state_machine_witness :
  chain status_step (service_with [] [])
    (trace failing_process_task accept_crontab
       [OpCreate "task-1"
          (TaskCreate.mk "flow-1" "flow-a" "flow-b" "email" "draft" None);
        OpUpdate "task-1" (TaskUpdate.mk None (Some "review") None);
        OpConsume "task-1"]
       (service_with [] [])).
Proof.
  apply (status_follows_state_machine failing_process_task accept_crontab).
  repeat constructor.
Defined.

(** C3 (as stated) fails: [update_task] with [status = "completed"] moves
    a pending task to [completed] in one step. *)
Lemma update_task_skips_processing :
  ¬ chain status_step (service_with [("task-1", sample_task)] [])
      (trace placeholder_process_task accept_crontab
         [OpUpdate "task-1" (TaskUpdate.mk (Some "completed") None None)]
         (service_with [("task-1", sample_task)] [])).
Proof.
  intros [Hstep _]. specialize (Hstep "task-1").
  vm_compute in Hstep. destruct Hstep as [t' [Hl [Hs|[[_ Hs]|[Hs _]]]]];
    injection Hl as <-; discriminate Hs.
Qed.


(** ** The queue holds dumped notifications *)

Lemma queue_grows_refl (s : service) : queue_grows s s.
Proof. exists []. simpl. now rewrite app_nil_r. Qed.

Lemma queue_grows_same (s s' : service) :
  notification_queue s' = notification_queue s → queue_grows s s'.
Proof. intros E. exists []. simpl. now rewrite app_nil_r. Qed.

Lemma queue_grows_trans (s1 s2 s3 : service) :
  queue_grows s1 s2 → queue_grows s2 s3 → queue_grows s1 s3.
Proof.
  intros [ns E1] [ms E2]. exists (ns ++ ms)%list.
  now rewrite E2, E1, List.map_app, List.app_assoc.
Qed.

Lemma queue_grows_enqueue (ns : list TaskNotification.t)
    (f : gmap string Task.t → gmap string Task.t) (s : service) :
  queue_grows s (enqueue ns (set_tasks f s)).
Proof. exists ns. destruct s; reflexivity. Qed.

Lemma queue_grows_dumped (s s' : service) :
  dumped_queue s → queue_grows s s' → dumped_queue s'.
Proof.
  intros [ns E] [ms E']. exists (ns ++ ms)%list. now rewrite E', E, List.map_app.
Qed.

Lemma update_task_queue_grows (task_id : string) (u : TaskUpdate.t) (s : service) :
  queue_grows s (snd (update_task task_id u s)).
Proof.
  destruct (tasks s !! task_id) as [task|] eqn:Hl.
  - rewrite (update_task_found _ _ _ _ Hl). apply queue_grows_enqueue.
  - rewrite (update_task_missing _ _ _ Hl). apply queue_grows_refl.
Qed.

Section QueueInvariant.

Variable _process_task : TaskRead → outcome strdict.
Variable valid_crontab : string → bool.

Lemma _schedule_task_queue (task : TaskRead) (s : service) :
  notification_queue (snd (_schedule_task valid_crontab task s)) = notification_queue s.
Proof.
  unfold _schedule_task.
  destruct (Task.cron_expression task) as [[|c e]|]; try (destruct s; reflexivity).
  unfold bind, from_crontab. destruct (valid_crontab (String c e)); destruct s; reflexivity.
Qed.

Lemma create_task_queue_grows (new_id : string) (task_create : TaskCreate.t) (s : service) :
  queue_grows s (snd (create_task valid_crontab new_id task_create s)).
Proof.
  destruct (tasks s !! new_id) as [t|] eqn:Hl.
  - rewrite create_task_duplicate; [|now exists t]. apply queue_grows_refl.
  - unfold create_task, bind, gets, modify. rewrite Hl, _notify_enqueue.
    match goal with
    | |- context [_schedule_task valid_crontab ?t ?s1] =>
        pose proof (_schedule_task_queue t s1) as Hs;
        assert (Hg : queue_grows s s1) by apply queue_grows_enqueue;
        destruct (_schedule_task valid_crontab t s1) as [[[]|e] s2]
    end; unfold ret; cbn [snd] in Hs |- *;
      (eapply queue_grows_trans; [exact Hg | apply queue_grows_same; exact Hs]).
Qed.

Lemma consume_task_queue_grows (task_id : string) (s : service) :
  queue_grows s (snd (consume_task _process_task task_id s)).
Proof.
  rewrite consume_task_split. unfold bind.
  destruct (tasks s !! task_id) as [task|] eqn:Hl.
  - destruct (String.eqb_spec (Task.status task) "pending") as [Hp|Hp].
    + rewrite (consume_task_begin_pending _ _ _ Hl Hp).
      rewrite (consume_task_end_found _ _ _ _ _ (lookup_after_store _ _ _ _)).
      cbn [snd]. cbv zeta.
      eapply queue_grows_trans; [apply queue_grows_enqueue|].
      apply queue_grows_enqueue.
    + unfold consume_task_begin, bind. rewrite (get_task_found _ _ _ Hl).
      apply not_pending_status in Hp. rewrite Hp. apply queue_grows_refl.
  - unfold consume_task_begin, bind. rewrite (get_task_missing _ _ Hl).
    apply queue_grows_refl.
Qed.

(** Every operation keeps the queue a list of dumped notifications, so
    [get_notifications] always meets the queue it is specified on. *)
Lemma run_op_dumped_queue (o : op) (s : service) :
  dumped_queue s → dumped_queue (run_op _process_task valid_crontab o s).
Proof.
  intros Hs. apply (queue_grows_dumped s); [exact Hs|].
  destruct o; cbn [run_op].
  - apply create_task_queue_grows.
  - apply update_task_queue_grows.
  - apply consume_task_queue_grows.
Qed.

End QueueInvariant.

Lemma get_notifications_dumped_queue (s : service) :
  dumped_queue s →
  ∃ ns, notification_queue s = List.map TaskNotification.model_dump ns
        ∧ get_notifications s = (Ok ns, set_notification_queue (fun _ => []) s).
Proof.
  intros [ns E]. exists ns. split; [exact E|].
  unfold get_notifications. rewrite E, drain_dumped. reflexivity.
Qed.

(** ** Content types: [to_dict] and [from_dict] *)

Lemma each_str (l : list string) : Validate.each Validate.str (List.map PStr l) = Ok l.
Proof. induction l as [|x l IH]; simpl; [reflexivity | now rewrite IH]. Qed.

Lemma optional_str (o : option string) :
  Validate.optional Validate.str (dump_opt PStr o) = Ok o.
Proof. destruct o; reflexivity. Qed.

Lemma optional_int (o : option Z) :
  Validate.optional Validate.int (dump_opt PInt o) = Ok o.
Proof. destruct o; reflexivity. Qed.

Lemma optional_float (o : option SpecFloat.spec_float) :
  Validate.optional Validate.float (dump_opt PFloat o) = Ok o.
Proof. destruct o; reflexivity. Qed.

Lemma HeaderDict_complete (h : pydict) :
  complete_header h → Validate.HeaderDict (PDict h) = Ok h.
Proof. intros [title [icon ->]]. reflexivity. Qed.

Ltac roundtrip :=
  cbn -[Validate.optional Validate.HeaderDict Validate.each];
  repeat first
    [ rewrite optional_str | rewrite optional_int | rewrite optional_float
    | rewrite each_str | rewrite HeaderDict_complete by assumption
    | rewrite String.eqb_refl ];
  cbn -[Validate.optional Validate.HeaderDict Validate.each];
  try reflexivity.

(** With a complete header, reading back a dumped [BaseContent] gives the
    content. *)
Lemma BaseContent_roundtrip (c : BaseContent.t) :
  complete_header (BaseContent.header c) →
  BaseContent.from_dict (BaseContent.to_dict c) = Ok c.
Proof.
  destruct c as [ty d h]. cbn [BaseContent.header]. intros Hh.
  unfold BaseContent.from_dict, BaseContent.to_dict. roundtrip.
Qed.

(** X20. With a complete header and the class's own [type], [from_dict]
    on the dump of a [ErrorContent] gives the content back. *)
Lemma ErrorContent_roundtrip (c : ErrorContent.t) :
  ErrorContent.type c = "error" → complete_header (ErrorContent.header c) →
  ErrorContent.from_dict (ErrorContent.to_dict c) = Ok c.
Proof.
  destruct c. cbn [ErrorContent.type ErrorContent.header]. intros -> Hh.
  unfold ErrorContent.from_dict, ErrorContent.to_dict. roundtrip.
Qed.

(** X21. With a complete header and the class's own [type], [from_dict]
    on the dump of a [TextContent], whose duration is an integer, gives the content back. *)
Lemma TextContent_roundtrip (c : TextContent.t) :
  TextContent.type c = "text" → complete_header (TextContent.header c) →
  TextContent.from_dict (TextContent.to_dict c) = Ok c.
Proof.
  destruct c. cbn [TextContent.type TextContent.header]. intros -> Hh.
  unfold TextContent.from_dict, TextContent.to_dict. roundtrip.
Qed.

(** X22. With a complete header and the class's own [type], [from_dict]
    on the dump of a [MediaContent], with its list of URLs, gives the content back. *)
Lemma MediaContent_roundtrip (c : MediaContent.t) :
  MediaContent.type c = "media" → complete_header (MediaContent.header c) →
  MediaContent.from_dict (MediaContent.to_dict c) = Ok c.
Proof.
  destruct c. cbn [MediaContent.type MediaContent.header]. intros -> Hh.
  unfold MediaContent.from_dict, MediaContent.to_dict. roundtrip.
Qed.

(** X23. With a complete header and the class's own [type], [from_dict]
    on the dump of a [JSONContent], nested data included, gives the content
    back. *)
Lemma JSONContent_roundtrip (c : JSONContent.t) :
  JSONContent.type c = "json" → complete_header (JSONContent.header c) →
  JSONContent.from_dict (JSONContent.to_dict c) = Ok c.
Proof.
  destruct c. cbn [JSONContent.type JSONContent.header]. intros -> Hh.
  unfold JSONContent.from_dict, JSONContent.to_dict. roundtrip.
Qed.

(** With a complete header and the class's own [type], [from_dict]
    on the dump of a [CodeContent] gives the content back. *)
Lemma CodeContent_roundtrip (c : CodeContent.t) :
  CodeContent.type c = "code" → complete_header (CodeContent.header c) →
  CodeContent.from_dict (CodeContent.to_dict c) = Ok c.
Proof.
  destruct c. cbn [CodeContent.type CodeContent.header]. intros -> Hh.
  unfold CodeContent.from_dict, CodeContent.to_dict. roundtrip.
Qed.

(** X24. With a complete header and the class's own [type], [from_dict]
    on the dump of a [ToolContent], dumped under the field name [tool_input], gives the content back. *)
Lemma ToolContent_roundtrip (c : ToolContent.t) :
  ToolContent.type c = "tool_use" → complete_header (ToolContent.header c) →
  ToolContent.from_dict (ToolContent.to_dict c) = Ok c.
Proof.
  destruct c. cbn [ToolContent.type ToolContent.header]. intros -> Hh.
  unfold ToolContent.from_dict, ToolContent.to_dict. roundtrip.
Qed.

(** A dumped content whose header is the default [{}] is turned down by
    [from_dict], whatever the other fields. *)
Lemma ErrorContent_empty_header_rejected (c : ErrorContent.t) :
  ErrorContent.type c = "error" → ErrorContent.header c = [] →
  ∃ msg, ErrorContent.from_dict (ErrorContent.to_dict c) = Raise (ValidationError msg).
Proof.
  destruct c. cbn [ErrorContent.type ErrorContent.header]. intros -> ->.
  unfold ErrorContent.from_dict, ErrorContent.to_dict.
  cbn -[Validate.optional]. rewrite optional_float. eexists. reflexivity.
Qed.

(** C10. [ErrorContent()] is a content value, with the header [{}]; its
    dump carries that header, and [from_dict] raises a validation error on
    the dump instead of returning the value. *)
Theorem error_content_default_not_read_back :
  ErrorContent.from_dict [] = Ok default_error_content
  ∧ dict_get (ErrorContent.to_dict default_error_content) "header" = Some (PDict [])
  ∧ (∃ msg, ErrorContent.from_dict (ErrorContent.to_dict default_error_content)
            = Raise (ValidationError msg))
  ∧ ErrorContent.from_dict (ErrorContent.to_dict default_error_content)
    ≠ Ok default_error_content.
Proof.
  split; [reflexivity|]. split; [reflexivity|]. split; [|discriminate].
  eexists. reflexivity.
Qed.

(** * Further properties of the service *)

(** X1. With a fresh identifier and no cron expression (none, or the
    empty text), [create_task] returns the new pending task, stores it
    under its identifier, appends the [task_created] entries of one
    emission and registers one immediate job under the task's identifier. *)
Theorem create_task_immediate (valid_crontab : string → bool) (new_id : string) (task_create : TaskCreate.t) (s : service) :
  tasks s !! new_id = None →
  TaskCreate.cron_expression task_create = None
  ∨ TaskCreate.cron_expression task_create = Some EmptyString →
  create_task valid_crontab new_id task_create s
  = (Ok (new_task new_id task_create),
     mkService (<[new_id := new_task new_id task_create]> (tasks s))
       (subscriptions s)
       (notification_queue s
        ++ List.map TaskNotification.model_dump
             (notify_entries (new_task new_id task_create) "task_created" (subscriptions s)))%list
       (<[new_id := Immediate]> (jobs s))).
Proof.
  intros Hfresh Hcron. unfold create_task, bind, gets, modify.
  rewrite Hfresh, _notify_enqueue. unfold _schedule_task.
  cbn [new_task Task.cron_expression Task.id].
  destruct s as [ts subs q js].
  destruct Hcron as [-> | ->]; reflexivity.
Qed.

Lemma create_task_immediate_witness :
  create_task accept_crontab "task-1"
    (TaskCreate.mk "flow-1" "flow-a" "flow-b" "email" "draft" None) (service_with [] [])
  = (Ok sample_task,
     mkService (<["task-1" := sample_task]> ∅) []
       (List.map TaskNotification.model_dump
          [snapshot sample_task "task_created" "flow-a";
           snapshot sample_task "task_created" "flow-b"])
       (<["task-1" := Immediate]> ∅)).
Proof.
  apply (create_task_immediate accept_crontab "task-1"
           (TaskCreate.mk "flow-1" "flow-a" "flow-b" "email" "draft" None)
           (service_with [] [])).
  - reflexivity.
  - left. reflexivity.
Defined.

(** X2. With a fresh identifier and a non-empty cron expression the
    parser accepts, [create_task] does the same and registers a cron job
    with that expression under the task's identifier. *)
Theorem create_task_cron (valid_crontab : string → bool) (new_id expr : string) (task_create : TaskCreate.t) (s : service) :
  tasks s !! new_id = None →
  TaskCreate.cron_expression task_create = Some expr →
  expr ≠ EmptyString →
  valid_crontab expr = true →
  create_task valid_crontab new_id task_create s
  = (Ok (new_task new_id task_create),
     mkService (<[new_id := new_task new_id task_create]> (tasks s))
       (subscriptions s)
       (notification_queue s
        ++ List.map TaskNotification.model_dump
             (notify_entries (new_task new_id task_create) "task_created" (subscriptions s)))%list
       (<[new_id := CronTrigger expr]> (jobs s))).
Proof.
  intros Hfresh Hcron Hne Hvalid. unfold create_task, bind, gets, modify.
  rewrite Hfresh, _notify_enqueue. unfold _schedule_task.
  cbn [new_task Task.cron_expression Task.id]. rewrite Hcron.
  destruct expr as [|c e]; [congruence|].
  unfold bind, from_crontab. rewrite Hvalid.
  destruct s as [ts subs q js]. reflexivity.
Qed.

Lemma create_task_cron_witness :
  create_task accept_crontab "task-1" hourly_task_create (service_with [] [])
  = (Ok (new_task "task-1" hourly_task_create),
     mkService (<["task-1" := new_task "task-1" hourly_task_create]> ∅) []
       (List.map TaskNotification.model_dump
          (notify_entries (new_task "task-1" hourly_task_create) "task_created" []))
       (<["task-1" := CronTrigger "0 * * * *"]> ∅)).
Proof.
  apply (create_task_cron accept_crontab "task-1" "0 * * * *" hourly_task_create
           (service_with [] [])).
  - reflexivity.
  - reflexivity.
  - discriminate.
  - reflexivity.
Defined.

(** X3. When the parser turns the cron expression down, [create_task]
    raises, after the task was stored and its [task_created] entries were
    queued: the task stays in the table, pending, with no job registered. *)
Theorem create_task_cron_rejected (valid_crontab : string → bool)
    (new_id expr : string) (task_create : TaskCreate.t)
    (s : service) :
  tasks s !! new_id = None →
  TaskCreate.cron_expression task_create = Some expr →
  expr ≠ EmptyString →
  valid_crontab expr = false →
  ∃ e : exn,
    create_task valid_crontab new_id task_create s
    = (Raise e,
       mkService (<[new_id := new_task new_id task_create]> (tasks s))
         (subscriptions s)
         (notification_queue s
          ++ List.map TaskNotification.model_dump
               (notify_entries (new_task new_id task_create) "task_created"
                  (subscriptions s)))%list
         (jobs s)).
Proof.
  intros Hfresh Hcron Hne Hvalid. unfold create_task, bind, gets, modify.
  rewrite Hfresh, _notify_enqueue. unfold _schedule_task.
  cbn [new_task Task.cron_expression Task.id]. rewrite Hcron.
  destruct expr as [|c e]; [congruence|].
  unfold bind, from_crontab. rewrite Hvalid.
  destruct s as [ts subs q js]. eexists. reflexivity.
Qed.

Lemma create_task_cron_rejected_witness :
  ∃ e : exn,
    create_task reject_crontab "task-1" hourly_task_create (service_with [] [])
    = (Raise e,
       mkService (<["task-1" := new_task "task-1" hourly_task_create]> ∅) []
         (List.map TaskNotification.model_dump
            (notify_entries (new_task "task-1" hourly_task_create) "task_created" []))
         ∅).
Proof.
  apply (create_task_cron_rejected reject_crontab "task-1" "0 * * * *" hourly_task_create
           (service_with [] [])).
  - reflexivity.
  - reflexivity.
  - discriminate.
  - reflexivity.
Defined.

(** X4. A task created under a fresh identifier is read back by
    [get_task] as it was returned, whatever the scheduling did. *)
Theorem get_task_after_create_task (valid_crontab : string → bool) (new_id : string) (task_create : TaskCreate.t)
    (s : service) :
  tasks s !! new_id = None →
  get_task new_id (snd (create_task valid_crontab new_id task_create s))
  = (Ok (new_task new_id task_create),
     snd (create_task valid_crontab new_id task_create s)).
Proof.
  intros Hfresh. apply get_task_found.
  rewrite (create_task_tasks _ _ _ _ Hfresh). apply lookup_insert_eq.
Qed.

Lemma get_task_after_create_task_witness :
  get_task "task-1"
    (snd (create_task reject_crontab "task-1" hourly_task_create (service_with [] [])))
  = (Ok (new_task "task-1" hourly_task_create),
     snd (create_task reject_crontab "task-1" hourly_task_create (service_with [] []))).
Proof.
  apply (get_task_after_create_task reject_crontab "task-1" hourly_task_create
           (service_with [] [])).
  reflexivity.
Defined.

(** X5. On an identifier that is not in the table, [get_task],
    [update_task], [delete_task] and [consume_task] all raise the same
    not-found [ValueError] and leave the service as it was: nothing is
    stored, queued or scheduled. *)
Theorem absent_task_raises_not_found (_process_task : TaskRead → outcome strdict)
    (task_id : string) (u : TaskUpdate.t) (s : service) :
  tasks s !! task_id = None →
  get_task task_id s = (Raise (not_found task_id), s)
  ∧ update_task task_id u s = (Raise (not_found task_id), s)
  ∧ delete_task task_id s = (Raise (not_found task_id), s)
  ∧ consume_task _process_task task_id s = (Raise (not_found task_id), s).
Proof.
  intros Hnone. repeat split.
  - now apply get_task_missing.
  - now apply update_task_missing.
  - unfold delete_task, bind, gets. now rewrite Hnone.
  - now apply consume_task_missing.
Qed.

Lemma absent_task_raises_not_found_witness :
  get_task "task-9" (service_with [("task-1", sample_task)] [])
  = (Raise (not_found "task-9"), service_with [("task-1", sample_task)] [])
  ∧ update_task "task-9" (to_processing sample_task) (service_with [("task-1", sample_task)] [])
    = (Raise (not_found "task-9"), service_with [("task-1", sample_task)] [])
  ∧ delete_task "task-9" (service_with [("task-1", sample_task)] [])
    = (Raise (not_found "task-9"), service_with [("task-1", sample_task)] [])
  ∧ consume_task placeholder_process_task "task-9" (service_with [("task-1", sample_task)] [])
    = (Raise (not_found "task-9"), service_with [("task-1", sample_task)] []).
Proof.
  apply (absent_task_raises_not_found placeholder_process_task "task-9"
           (to_processing sample_task) (service_with [("task-1", sample_task)] [])).
  vm_compute. reflexivity.
Defined.

(** X6. [update_task] on a stored task returns the row it leaves in the
    table; in that row each of [status], [state] and [result] has the value
    of the partial where the partial sets it and its old value otherwise,
    and every other field is as before. *)
Theorem update_task_sets_given_fields (task_id : string) (u : TaskUpdate.t)
    (task : Task.t) (s : service) :
  tasks s !! task_id = Some task →
  ∃ (task' : Task.t) (s' : service),
    update_task task_id u s = (Ok task', s')
    ∧ tasks s' !! task_id = Some task'
    ∧ Task.status task' = default (Task.status task) (TaskUpdate.status u)
    ∧ Task.state task' = default (Task.state task) (TaskUpdate.state u)
    ∧ Task.result task' = default (Task.result task) (TaskUpdate.result u)
    ∧ Task.id task' = Task.id task
    ∧ Task.flow_id task' = Task.flow_id task
    ∧ Task.author_id task' = Task.author_id task
    ∧ Task.assignee_id task' = Task.assignee_id task
    ∧ Task.category task' = Task.category task
    ∧ Task.cron_expression task' = Task.cron_expression task.
Proof.
  intros Hfound. rewrite (update_task_found _ _ _ _ Hfound).
  eexists _, _. split; [reflexivity|]. split.
  - rewrite tasks_after_update. unfold committed.
    destruct (model_dump_exclude_unset u) eqn:Hd.
    + unfold updated. rewrite Hd. exact Hfound.
    + apply lookup_insert_eq.
  - unfold updated, model_dump_exclude_unset.
    destruct u as [[st|] [sa|] [r|]]; destruct task; cbn; repeat split.
Qed.

Lemma update_task_sets_given_fields_witness :
  ∃ (task' : Task.t) (s' : service),
    update_task "task-1" (TaskUpdate.mk None (Some "review") None)
      (service_with [("task-1", sample_task)] [])
    = (Ok task', s')
    ∧ tasks s' !! "task-1" = Some task'
    ∧ Task.status task' = "pending"
    ∧ Task.state task' = "review"
    ∧ Task.result task' = None
    ∧ Task.id task' = "task-1"
    ∧ Task.flow_id task' = "flow-1"
    ∧ Task.author_id task' = "flow-a"
    ∧ Task.assignee_id task' = "flow-b"
    ∧ Task.category task' = "email"
    ∧ Task.cron_expression task' = None.
Proof.
  apply (update_task_sets_given_fields "task-1" (TaskUpdate.mk None (Some "review") None)
           sample_task (service_with [("task-1", sample_task)] [])).
  vm_compute. reflexivity.
Defined.

(** X7. [update_task] never touches the scheduler, the subscriptions or
    any other task: the jobs and the subscription rows are as before, and
    so is the row of every other identifier. *)
Theorem update_task_leaves_the_rest (task_id : string) (u : TaskUpdate.t) (s : service) :
  jobs (snd (update_task task_id u s)) = jobs s
  ∧ subscriptions (snd (update_task task_id u s)) = subscriptions s
  ∧ ∀ other : string, other ≠ task_id →
      tasks (snd (update_task task_id u s)) !! other = tasks s !! other.
Proof.
  destruct (tasks s !! task_id) as [task|] eqn:Hl.
  - rewrite (update_task_found _ _ _ _ Hl). cbn [snd].
    split; [destruct s; reflexivity|]. split; [destruct s; reflexivity|].
    intros other Hne. rewrite tasks_after_update. unfold committed.
    destruct (model_dump_exclude_unset u); [reflexivity|].
    now apply lookup_insert_ne.
  - rewrite (update_task_missing _ _ _ Hl). repeat split.
Qed.

(** X8. [delete_task] on a stored task removes its row and nothing else:
    no notification is queued and its job stays registered.  Afterwards
    [get_task] raises not-found, and so does [consume_task] when the
    scheduler fires the job, without any change. *)
Theorem delete_task_removes_only_the_row (_process_task : TaskRead → outcome strdict)
    (task_id : string) (task : Task.t) (s : service) :
  tasks s !! task_id = Some task →
  let s' := mkService (delete task_id (tasks s)) (subscriptions s)
              (notification_queue s) (jobs s) in
  delete_task task_id s = (Ok tt, s')
  ∧ get_task task_id s' = (Raise (not_found task_id), s')
  ∧ consume_task _process_task task_id s' = (Raise (not_found task_id), s').
Proof.
  intros Hfound s'.
  assert (Hgone : tasks s' !! task_id = None) by apply lookup_delete_eq.
  split; [|split].
  - unfold delete_task, bind, gets. rewrite Hfound. reflexivity.
  - now apply get_task_missing.
  - now apply consume_task_missing.
Qed.

Lemma delete_task_removes_only_the_row_witness :
  delete_task "task-1" (service_with [("task-1", sample_task)] [])
  = (Ok tt, mkService (delete "task-1" (<["task-1" := sample_task]> ∅)) [] [] ∅).
Proof.
  apply (delete_task_removes_only_the_row placeholder_process_task "task-1" sample_task
           (service_with [("task-1", sample_task)] [])).
  vm_compute. reflexivity.
Defined.



Lemma consume_task_success_witness :
  ∃ (s' : service) (stored : Task.t),
    consume_task placeholder_process_task "task-1" (service_with [("task-1", sample_task)] [])
    = (Ok tt, s')
    ∧ tasks s' !! "task-1" = Some stored
    ∧ Task.status stored = "completed"
    ∧ Task.result stored = Some [("result", "Task processed successfully")].
Proof.
  apply (consume_task_success placeholder_process_task "task-1" sample_task
           [("result", "Task processed successfully")]
           (service_with [("task-1", sample_task)] [])).
  - vm_compute. reflexivity.
  - reflexivity.
  - reflexivity.
Defined.

Lemma consume_task_pending (_process_task : TaskRead → outcome strdict)
    (task_id : string) (task : Task.t) (s : service) :
  tasks s !! task_id = Some task →
  Task.status task = "pending" →
  consume_task _process_task task_id s
  = (Ok tt,
     let t1 := updated task (to_processing task) in
     let u := match _process_task task with
              | Ok result => to_completed task result
              | Raise e => to_failed task e
              end in
     let s1 := enqueue (notify_entries t1 "task_updated" (subscriptions s))
                 (set_tasks (fun ts => <[task_id := t1]> ts) s) in
     enqueue (notify_entries (updated t1 u) "task_updated" (subscriptions s1))
       (set_tasks (fun ts => <[task_id := updated t1 u]> ts) s1)).
Proof.
  intros Hfound Hpending. rewrite consume_task_split. unfold bind.
  rewrite (consume_task_begin_pending _ _ _ Hfound Hpending).
  rewrite (consume_task_end_found _ _ _ _ _ (lookup_after_store _ _ _ _)).
  reflexivity.
Qed.

(** X11. A second [consume_task] on the same task, as a duplicate or late
    trigger of the scheduler makes it, raises the not-pending [ValueError]
    and changes nothing, whether the first run completed or failed. *)
Theorem consume_task_twice (_process_task : TaskRead → outcome strdict)
    (task_id : string) (task : Task.t) (s : service) :
  tasks s !! task_id = Some task →
  Task.status task = "pending" →
  consume_task _process_task task_id (snd (consume_task _process_task task_id s))
  = (Raise (not_pending task_id), snd (consume_task _process_task task_id s)).
Proof.
  intros Hfound Hpending.
  rewrite (consume_task_pending _ _ _ _ Hfound Hpending). cbn [snd]. cbv zeta.
  unfold consume_task at 1, bind.
  rewrite (get_task_found _ _ _ (lookup_after_store _ _ _ _)).
  destruct (_process_task task); reflexivity.
Qed.

Lemma consume_task_twice_witness :
  consume_task failing_process_task "task-1"
    (snd (consume_task failing_process_task "task-1"
            (service_with [("task-1", sample_task)] [])))
  = (Raise (not_pending "task-1"),
     snd (consume_task failing_process_task "task-1"
            (service_with [("task-1", sample_task)] []))).
Proof.
  apply (consume_task_twice failing_process_task "task-1" sample_task
           (service_with [("task-1", sample_task)] [])).
  - vm_compute. reflexivity.
  - reflexivity.
Defined.

(** X12. [consume_task] on a pending task queues two [task_updated]
    emissions and nothing else: first the entries of the task with status
    [processing], then those of the task with its final status,
    [completed] or [failed]; category and state in the entries are the
    task's own.  The jobs and the subscriptions stay as they were. *)
Theorem consume_task_queues_two_emissions (_process_task : TaskRead → outcome strdict)
    (task_id : string) (task : Task.t) (s : service) :
  tasks s !! task_id = Some task →
  Task.status task = "pending" →
  ∃ final : string,
    (final = "completed" ∨ final = "failed")
    ∧ (final = "completed" ↔ ∃ result, _process_task task = Ok result)
    ∧ notification_queue (snd (consume_task _process_task task_id s))
      = (notification_queue s
         ++ List.map TaskNotification.model_dump
              (notify_entries (setattr task (status_item "processing"))
                 "task_updated" (subscriptions s))
         ++ List.map TaskNotification.model_dump
              (notify_entries (setattr task (status_item final))
                 "task_updated" (subscriptions s)))%list
    ∧ jobs (snd (consume_task _process_task task_id s)) = jobs s
    ∧ subscriptions (snd (consume_task _process_task task_id s)) = subscriptions s.
Proof.
  intros Hfound Hpending.
  rewrite (consume_task_pending _ _ _ _ Hfound Hpending). cbn [snd]. cbv zeta.
  destruct s as [ts subs q js]. destruct task as [i f a b c st stat cron r].
  destruct (_process_task _) as [result|e] eqn:Hp.
  - exists "completed". split; [now left|]. split; [split; eauto|].
    cbn. rewrite <- List.app_assoc. repeat split.
  - exists "failed". split; [now right|].
    split; [split; [discriminate | intros [result H]; discriminate H]|].
    cbn. rewrite <- List.app_assoc. repeat split.
Qed.

Lemma consume_task_queues_two_emissions_witness :
  ∃ final : string,
    (final = "completed" ∨ final = "failed")
    ∧ (final = "completed" ↔ ∃ result, failing_process_task sample_task = Ok result)
    ∧ notification_queue
        (snd (consume_task failing_process_task "task-1"
                (service_with [("task-1", sample_task)] [])))
      = ([] ++ List.map TaskNotification.model_dump
                 (notify_entries (setattr sample_task (status_item "processing"))
                    "task_updated" [])
            ++ List.map TaskNotification.model_dump
                 (notify_entries (setattr sample_task (status_item final))
                    "task_updated" []))%list
    ∧ jobs (snd (consume_task failing_process_task "task-1"
                   (service_with [("task-1", sample_task)] []))) = ∅
    ∧ subscriptions (snd (consume_task failing_process_task "task-1"
                            (service_with [("task-1", sample_task)] []))) = [].
Proof.
  apply (consume_task_queues_two_emissions failing_process_task "task-1" sample_task
           (service_with [("task-1", sample_task)] [])).
  - vm_compute. reflexivity.
  - reflexivity.
Defined.



(** X15. [create_task], [update_task] and [consume_task] only append to
    the notification queue: what was queued stays in place, unchanged by
    later changes of the task, and what follows are dumped notifications. *)
Theorem operations_only_append (_process_task : TaskRead → outcome strdict)
    (valid_crontab : string → bool) (o : op) (s : service) :
  queue_grows s (run_op _process_task valid_crontab o s).
Proof.
  destruct o; cbn [run_op].
  - apply create_task_queue_grows.
  - apply update_task_queue_grows.
  - apply consume_task_queue_grows.
Qed.

Lemma _schedule_task_accepted (valid_crontab : string → bool) (task : TaskRead)
    (s : service) :
  (∀ expr, Task.cron_expression task = Some expr → valid_crontab expr = true) →
  _schedule_task valid_crontab task s
  = (Ok tt,
     set_jobs (fun js =>
       <[Task.id task := match Task.cron_expression task with
                         | Some (String c e) => CronTrigger (String c e)
                         | _ => Immediate
                         end]> js) s).
Proof.
  intros Hvalid. unfold _schedule_task.
  destruct (Task.cron_expression task) as [[|c e]|]; try reflexivity.
  unfold bind, from_crontab. rewrite (Hvalid _ eq_refl). reflexivity.
Qed.

Lemma _schedule_task_jobs (valid_crontab : string → bool) (task : TaskRead) (s : service) :
  jobs (snd (_schedule_task valid_crontab task s)) = jobs s
  ∨ ∃ tr, jobs (snd (_schedule_task valid_crontab task s)) = <[Task.id task := tr]> (jobs s).
Proof.
  unfold _schedule_task.
  destruct (Task.cron_expression task) as [[|c e]|].
  - right. exists Immediate. destruct s; reflexivity.
  - unfold bind, from_crontab. destruct (valid_crontab (String c e)).
    + right. exists (CronTrigger (String c e)). destruct s; reflexivity.
    + left. destruct s; reflexivity.
  - right. exists Immediate. destruct s; reflexivity.
Qed.

(** X16. Scheduling replaces: when a task is scheduled and then a task
    with the same identifier is scheduled with an expression the parser
    accepts (or with none), the job store is as if only the second had
    been scheduled, with one job under that identifier. *)
Theorem schedule_task_replaces (valid_crontab : string → bool)
    (first second : TaskRead) (s : service) :
  Task.id first = Task.id second →
  (∀ expr, Task.cron_expression second = Some expr → valid_crontab expr = true) →
  jobs (snd (_schedule_task valid_crontab second
               (snd (_schedule_task valid_crontab first s))))
  = jobs (snd (_schedule_task valid_crontab second s))
  ∧ is_Some (jobs (snd (_schedule_task valid_crontab second s)) !! Task.id second).
Proof.
  intros Hid Hvalid. rewrite !(_schedule_task_accepted _ second _ Hvalid). cbn [snd].
  split.
  - destruct (_schedule_task_jobs valid_crontab first s) as [E | [tr E]].
    + destruct (snd (_schedule_task valid_crontab first s)) as [ts1 subs1 q1 js1].
      cbn in E. subst js1. destruct s; reflexivity.
    + destruct (snd (_schedule_task valid_crontab first s)) as [ts1 subs1 q1 js1].
      cbn in E. subst js1. destruct s as [ts subs q js]. cbn [jobs set_jobs].
      rewrite Hid. apply insert_insert_eq.
  - destruct s as [ts subs q js]. cbn [jobs set_jobs]. rewrite lookup_insert_eq. eauto.
Qed.

Lemma schedule_task_replaces_witness :
  jobs (snd (_schedule_task accept_crontab (new_task "task-1" hourly_task_create)
               (snd (_schedule_task accept_crontab sample_task (service_with [] [])))))
  = jobs (snd (_schedule_task accept_crontab (new_task "task-1" hourly_task_create)
                 (service_with [] []))).
Proof.
  apply (schedule_task_replaces accept_crontab sample_task
           (new_task "task-1" hourly_task_create) (service_with [] [])).
  - reflexivity.
  - intros expr _. reflexivity.
Defined.


(** ** Further properties of the job-store URL *)

Lemma sqlite_url_with_dot_witness :
  add_tasks_to_database_url ("sqlite:///./data/langflow" +:+ "." +:+ "db")
  = "sqlite:///./data/langflow" +:+ "-tasks." +:+ "db".
Proof.
  apply (sqlite_url_with_dot "sqlite:///./data/langflow" "db"); reflexivity.
Defined.

Lemma sqlite_url_without_dot_witness :
  add_tasks_to_database_url "sqlite:///:memory:" = "sqlite:///:memory:" +:+ "-tasks".
Proof. apply (sqlite_url_without_dot "sqlite:///:memory:"); reflexivity. Defined.

Lemma server_url_with_query_witness :
  add_tasks_to_database_url ("postgresql://u:p@host:5432/langflow" +:+ "?" +:+ "sslmode=require")
  = "postgresql://u:p@host:5432/langflow" +:+ "_tasks?" +:+ "sslmode=require".
Proof.
  apply (server_url_with_query "postgresql://u:p@host:5432/langflow" "sslmode=require");
    reflexivity.
Defined.

Lemma server_url_without_query_witness :
  add_tasks_to_database_url "mysql://u:p@host/langflow" = "mysql://u:p@host/langflow" +:+ "_tasks".
Proof. apply (server_url_without_query "mysql://u:p@host/langflow"); reflexivity. Defined.

Lemma other_url_unchanged_witness :
  add_tasks_to_database_url "postgresql+psycopg2://u:p@host/langflow"
  = "postgresql+psycopg2://u:p@host/langflow".
Proof.
  apply (other_url_unchanged "postgresql+psycopg2://u:p@host/langflow"); reflexivity.
Defined.

Lemma length_append (a b : string) :
  String.length (a +:+ b) = String.length a + String.length b.
Proof. induction a as [|c a IH]; simpl; [reflexivity | now rewrite IH]. Qed.

Lemma cut_last_sound (c : ascii) (s h t : string) :
  PyStr.cut_last c s = Some (h, t) → s = h +:+ String c t.
Proof.
  revert h t. induction s as [|d s IH]; intros h t; simpl; [discriminate|].
  destruct (PyStr.cut_last c s) as [[h' t']|].
  - intros [= <- <-]. simpl. now rewrite (IH h' t' eq_refl) at 1.
  - destruct (Ascii.eqb_spec c d) as [->|Hne]; [|discriminate].
    intros [= <- <-]. reflexivity.
Qed.

Lemma cut_first_sound (c : ascii) (s h t : string) :
  PyStr.cut_first c s = Some (h, t) → s = h +:+ String c t.
Proof.
  revert h t. induction s as [|d s IH]; intros h t; simpl; [discriminate|].
  destruct (Ascii.eqb_spec c d) as [->|Hne].
  - intros [= <- <-]. reflexivity.
  - destruct (PyStr.cut_first c s) as [[h' t']|]; [|discriminate].
    intros [= <- <-]. simpl. now rewrite (IH h' t' eq_refl) at 1.
Qed.

Lemma cut_first_present (c : ascii) (s : string) :
  PyStr.contains c s = true → is_Some (PyStr.cut_first c s).
Proof.
  induction s as [|d s IH]; simpl; [discriminate|].
  destruct (Ascii.eqb c d); [eauto|].
  intros H. destruct (IH H) as [[h t] ->]. eauto.
Qed.

(** X19. For a sqlite, postgresql or mysql URL the derived URL is six
    characters longer than the original, so it never names the primary
    database itself. *)
Theorem tasks_url_is_longer (url : string) :
  PyStr.startswith url "sqlite://" = true ∨ server_scheme url = true →
  String.length (add_tasks_to_database_url url) = String.length url + 6
  ∧ add_tasks_to_database_url url ≠ url.
Proof.
  intros Hscheme.
  assert (Hlen : String.length (add_tasks_to_database_url url) = String.length url + 6).
  { unfold add_tasks_to_database_url. destruct Hscheme as [Hs | Hs].
    - rewrite Hs. unfold PyStr.rsplit1.
      destruct (PyStr.cut_last "." url) as [[h t]|] eqn:E.
      + apply cut_last_sound in E. subst url. cbn [List.length Nat.ltb Nat.leb PyStr.item nth].
        rewrite !length_append. cbn [String.length]. lia.
      + cbn [List.length Nat.ltb Nat.leb]. rewrite length_append. reflexivity.
    - rewrite (server_scheme_not_sqlite _ Hs). fold (server_scheme url). rewrite Hs.
      destruct (PyStr.contains "?" url) eqn:Hq.
      + destruct (cut_first_present _ _ Hq) as [[h t] E]. unfold PyStr.split1. rewrite E.
        apply cut_first_sound in E. subst url. cbn [PyStr.item nth].
        rewrite !length_append. cbn [String.length]. lia.
      + rewrite length_append. reflexivity. }
  split; [exact Hlen|]. intros E. rewrite E in Hlen. lia.
Qed.

Lemma tasks_url_is_longer_witness :
  String.length (add_tasks_to_database_url "sqlite:///./langflow.db")
  = String.length "sqlite:///./langflow.db" + 6
  ∧ add_tasks_to_database_url "sqlite:///./langflow.db" ≠ "sqlite:///./langflow.db".
Proof.
  apply (tasks_url_is_longer "sqlite:///./langflow.db"). left. reflexivity.
Defined.


(** * Further properties of the content types *)

Lemma sample_header_complete : complete_header sample_header.
Proof. exists "Failure", "alert". reflexivity. Qed.

Lemma ErrorContent_roundtrip_witness :
  ErrorContent.from_dict
    (ErrorContent.to_dict
       (ErrorContent.mk "error" None sample_header (Some "Agent") None
          (Some "timeout") None None))
  = Ok (ErrorContent.mk "error" None sample_header (Some "Agent") None
          (Some "timeout") None None).
Proof.
  apply (ErrorContent_roundtrip
           (ErrorContent.mk "error" None sample_header (Some "Agent") None
              (Some "timeout") None None)).
  - reflexivity.
  - exists "Failure", "alert". reflexivity.
Defined.

Lemma TextContent_roundtrip_witness :
  TextContent.from_dict
    (TextContent.to_dict (TextContent.mk "text" (Some 12%Z) sample_header "hello"))
  = Ok (TextContent.mk "text" (Some 12%Z) sample_header "hello").
Proof.
  apply (TextContent_roundtrip (TextContent.mk "text" (Some 12%Z) sample_header "hello")).
  - reflexivity.
  - exists "Failure", "alert". reflexivity.
Defined.

Lemma MediaContent_roundtrip_witness :
  MediaContent.from_dict
    (MediaContent.to_dict
       (MediaContent.mk "media" None sample_header ["a.png"; "b.png"] (Some "two images")))
  = Ok (MediaContent.mk "media" None sample_header ["a.png"; "b.png"] (Some "two images")).
Proof.
  apply (MediaContent_roundtrip
           (MediaContent.mk "media" None sample_header ["a.png"; "b.png"]
              (Some "two images"))).
  - reflexivity.
  - exists "Failure", "alert". reflexivity.
Defined.

Lemma JSONContent_roundtrip_witness :
  JSONContent.from_dict
    (JSONContent.to_dict
       (JSONContent.mk "json" None sample_header
          [("rows", PList [PDict [("id", PInt 1)]; PNone])]))
  = Ok (JSONContent.mk "json" None sample_header
          [("rows", PList [PDict [("id", PInt 1)]; PNone])]).
Proof.
  apply (JSONContent_roundtrip
           (JSONContent.mk "json" None sample_header
              [("rows", PList [PDict [("id", PInt 1)]; PNone])])).
  - reflexivity.
  - exists "Failure", "alert". reflexivity.
Defined.

Lemma ToolContent_roundtrip_witness :
  ToolContent.from_dict
    (ToolContent.to_dict
       (ToolContent.mk "tool_use" (Some 3%Z) sample_header (Some "search")
          [("query", PStr "rocq")] (PList [PInt 1; PNone]) PNone))
  = Ok (ToolContent.mk "tool_use" (Some 3%Z) sample_header (Some "search")
          [("query", PStr "rocq")] (PList [PInt 1; PNone]) PNone).
Proof.
  apply (ToolContent_roundtrip
           (ToolContent.mk "tool_use" (Some 3%Z) sample_header (Some "search")
              [("query", PStr "rocq")] (PList [PInt 1; PNone]) PNone)).
  - reflexivity.
  - exists "Failure", "alert". reflexivity.
Defined.

(** X25. Each class with a literal [type] turns down keywords whose
    [type] is another text: a dump of one content class is not read as a
    content of another class. *)
Theorem from_dict_rejects_other_type (data : pydict) (ty : string) :
  dict_get data "type" = Some (PStr ty) →
  (ty ≠ "error" → ∃ msg, ErrorContent.from_dict data = Raise (ValidationError msg))
  ∧ (ty ≠ "text" → ∃ msg, TextContent.from_dict data = Raise (ValidationError msg))
  ∧ (ty ≠ "media" → ∃ msg, MediaContent.from_dict data = Raise (ValidationError msg))
  ∧ (ty ≠ "json" → ∃ msg, JSONContent.from_dict data = Raise (ValidationError msg))
  ∧ (ty ≠ "code" → ∃ msg, CodeContent.from_dict data = Raise (ValidationError msg))
  ∧ (ty ≠ "tool_use" → ∃ msg, ToolContent.from_dict data = Raise (ValidationError msg)).
Proof.
  intros Hty.
  assert (Hlit : ∀ expected, ty ≠ expected →
    ∃ msg, Validate.with_default data "type" expected (Validate.literal expected)
           = Raise (ValidationError msg)).
  { intros expected Hne. unfold Validate.with_default. rewrite Hty.
    unfold Validate.literal. destruct (String.eqb_spec ty expected) as [E|_]; [congruence|].
    eexists. reflexivity. }
  repeat split; intros Hne; destruct (Hlit _ Hne) as [msg E]; exists msg.
  - unfold ErrorContent.from_dict. now rewrite E.
  - unfold TextContent.from_dict. now rewrite E.
  - unfold MediaContent.from_dict. now rewrite E.
  - unfold JSONContent.from_dict. now rewrite E.
  - unfold CodeContent.from_dict. now rewrite E.
  - unfold ToolContent.from_dict. now rewrite E.
Qed.

Lemma from_dict_rejects_other_type_witness :
  ∃ msg, TextContent.from_dict
           (ErrorContent.to_dict
              (ErrorContent.mk "error" None sample_header None None None None None))
         = Raise (ValidationError msg).
Proof.
  apply (from_dict_rejects_other_type
           (ErrorContent.to_dict
              (ErrorContent.mk "error" None sample_header None None None None None))
           "error").
  - reflexivity.
  - discriminate.
Defined.

(** X26. [ToolContent] takes its input under the alias [input] as well as
    under the field name [tool_input]: the same keywords with the one or
    the other spelling give the same content. *)
Theorem ToolContent_input_alias (data : pydict) (v : pyval) :
  dict_get data "input" = None →
  dict_get data "tool_input" = None →
  ToolContent.from_dict (("input", v) :: data)
  = ToolContent.from_dict (("tool_input", v) :: data).
Proof.
  intros Hi Ht. unfold ToolContent.from_dict, ToolContent.tool_input_keyword,
    Validate.with_default.
  cbn [dict_get String.eqb Ascii.eqb Bool.eqb]. rewrite Hi. reflexivity.
Qed.

Lemma ToolContent_input_alias_witness :
  ToolContent.from_dict [("input", PDict [("query", PStr "rocq")]); ("name", PStr "search")]
  = ToolContent.from_dict
      [("tool_input", PDict [("query", PStr "rocq")]); ("name", PStr "search")].
Proof.
  apply (ToolContent_input_alias [("name", PStr "search")] (PDict [("query", PStr "rocq")]));
    reflexivity.
Defined.

(** * Properties of the type-hint helpers *)

Lemma contains_first_line (c : ascii) (s : string) :
  PyStr.contains c s = false → PyStr.contains c (TypeHints.first_line s) = false.
Proof.
  induction s as [|d s IH]; simpl; [reflexivity|].
  destruct (Ascii.eqb c d) eqn:E; [discriminate|]. intros H.
  destruct (Ascii.eqb d "010"); simpl; [reflexivity|]. rewrite E. now apply IH.
Qed.

Lemma first_line_app (a b : string) :
  PyStr.contains "010" a = false →
  TypeHints.first_line (a +:+ b) = a +:+ TypeHints.first_line b.
Proof.
  induction a as [|d a IH]; [reflexivity|].
  change (String d a +:+ b) with (String d (a +:+ b)).
  change (String d a +:+ TypeHints.first_line b)
    with (String d (a +:+ TypeHints.first_line b)).
  cbn [PyStr.contains TypeHints.first_line].
  destruct (Ascii.eqb_spec "010" d) as [<-|Hne]; [discriminate|]. intros H.
  destruct (Ascii.eqb_spec d "010") as [E|_]; [congruence|]. now rewrite IH.
Qed.

Lemma contains_drop (c : ascii) (n : nat) (s : string) :
  PyStr.contains c s = false → PyStr.contains c (TypeHints.drop n s) = false.
Proof.
  revert s. induction n as [|n IH]; intros s; [destruct s; trivial|].
  destruct s as [|d s]; simpl; [trivial|].
  destruct (Ascii.eqb c d); [discriminate|]. apply IH.
Qed.

Lemma contains_strip_one_of (c : ascii) (alternatives : list string) (s rest : string) :
  TypeHints.strip_one_of alternatives s = Some rest →
  PyStr.contains c s = false → PyStr.contains c rest = false.
Proof.
  induction alternatives as [|a alternatives IH]; simpl; [discriminate|].
  destruct (PyStr.startswith s a); [|exact IH].
  intros [= <-]. apply contains_drop.
Qed.

Lemma contains_strip_sequence (c : ascii) (letters : list (list string)) (s rest : string) :
  TypeHints.strip_sequence letters s = Some rest →
  PyStr.contains c s = false → PyStr.contains c rest = false.
Proof.
  revert s. induction letters as [|alternatives letters IH]; intros s; simpl.
  - now intros [= <-].
  - destruct (TypeHints.strip_one_of alternatives s) as [s'|] eqn:E; [|discriminate].
    intros Hrest Hs. apply (IH s' Hrest). exact (contains_strip_one_of _ _ _ _ E Hs).
Qed.

(** X27. A hint spelled [list] or [List], an opening bracket, a text
    without line feed, a closing bracket and then a text without closing
    bracket yields the text between the brackets, nested brackets
    included. *)
Theorem extract_inner_type_of_list (inner tail : string) :
  PyStr.contains "010" inner = false →
  PyStr.contains "]" tail = false →
  TypeHints.extract_inner_type ("list[" +:+ inner +:+ "]" +:+ tail) = inner
  ∧ TypeHints.extract_inner_type ("List[" +:+ inner +:+ "]" +:+ tail) = inner.
Proof.
  intros Hline Htail.
  assert (Hcut : PyStr.cut_last "]" (TypeHints.first_line (inner +:+ "]" +:+ tail))
                 = Some (inner, TypeHints.first_line tail)).
  { rewrite (first_line_app _ _ Hline).
    change (TypeHints.first_line ("]" +:+ tail)) with (String "]" (TypeHints.first_line tail)).
    apply cut_last_app. now apply contains_first_line. }
  split.
  - unfold TypeHints.extract_inner_type.
    change (TypeHints.strip_sequence TypeHints.list_bracket
              ("list[" +:+ inner +:+ "]" +:+ tail))
      with (Some (inner +:+ "]" +:+ tail)).
    cbv iota beta. now rewrite Hcut.
  - unfold TypeHints.extract_inner_type.
    change (TypeHints.strip_sequence TypeHints.list_bracket
              ("List[" +:+ inner +:+ "]" +:+ tail))
      with (Some (inner +:+ "]" +:+ tail)).
    cbv iota beta. now rewrite Hcut.
Qed.

Lemma extract_inner_type_of_list_witness :
  TypeHints.extract_inner_type ("list[" +:+ "Dict[str, List[int]]" +:+ "]" +:+ " | None")
  = "Dict[str, List[int]]".
Proof.
  apply (extract_inner_type_of_list "Dict[str, List[int]]" " | None"); reflexivity.
Defined.

(** X28. A hint without closing bracket, or one whose first character is
    neither [l] nor [L], is returned as it is. *)
Theorem extract_inner_type_unchanged (return_type : string) :
  PyStr.contains "]" return_type = false
  ∨ (∃ c rest, return_type = String c rest ∧ c ≠ "l"%char ∧ c ≠ "L"%char) →
  TypeHints.extract_inner_type return_type = return_type.
Proof.
  intros [Hnone | [c [rest [-> [Hl HL]]]]]; unfold TypeHints.extract_inner_type.
  - destruct (TypeHints.strip_sequence TypeHints.list_bracket return_type) as [r|] eqn:E;
      [|reflexivity].
    pose proof (contains_strip_sequence "]" _ _ _ E Hnone) as Hr.
    now rewrite (cut_last_absent _ _ (contains_first_line _ _ Hr)).
  - cbn [TypeHints.strip_sequence TypeHints.list_bracket TypeHints.strip_one_of
         PyStr.startswith].
    destruct (Ascii.eqb_spec "l" c) as [E|_]; [congruence|].
    destruct (Ascii.eqb_spec "L" c) as [E|_]; [congruence|]. reflexivity.
Qed.

Lemma extract_inner_type_unchanged_witness :
  TypeHints.extract_inner_type "Dict[str, int]" = "Dict[str, int]".
Proof.
  apply (extract_inner_type_unchanged "Dict[str, int]").
  right. exists "D"%char, "ict[str, int]". repeat split; discriminate.
Defined.

Lemma startswith_app_char (c : ascii) (old s x : string) :
  PyStr.contains c old = false →
  PyStr.startswith (s +:+ String c x) old = PyStr.startswith s old.
Proof.
  revert s. induction old as [|p old IH]; intros s; [reflexivity|].
  cbn [PyStr.contains].
  destruct (Ascii.eqb_spec c p) as [E|Hne]; [discriminate|]. intros Hold.
  destruct s as [|d s].
  - change (EmptyString +:+ String c x) with (String c x). cbn [PyStr.startswith].
    destruct (Ascii.eqb_spec p c) as [E|_]; [congruence | reflexivity].
  - change (String d s +:+ String c x) with (String d (s +:+ String c x)).
    cbn [PyStr.startswith]. destruct (Ascii.eqb p d); [now apply IH | reflexivity].
Qed.

Lemma startswith_length (s old : string) :
  PyStr.startswith s old = true → (String.length old <= String.length s)%nat.
Proof.
  revert s. induction old as [|p old IH]; intros s; cbn [PyStr.startswith String.length];
    [lia|].
  destruct s as [|d s]; [discriminate|].
  destruct (Ascii.eqb p d); [|discriminate].
  intros H. apply IH in H. cbn [String.length]. lia.
Qed.

Lemma remove_from_app_char (c p : ascii) (old : string) (s : string) (k : nat) :
  PyStr.contains c (String p old) = false →
  (k <= String.length s)%nat →
  TypeHints.remove_from (String p old) k (s +:+ String c EmptyString)
  = TypeHints.remove_from (String p old) k s +:+ String c EmptyString.
Proof.
  intros Hc. revert k. induction s as [|d s IH]; intros k Hk.
  - cbn [String.length] in Hk. assert (k = 0) as -> by lia.
    change (EmptyString +:+ String c EmptyString) with (String c EmptyString).
    cbn [TypeHints.remove_from PyStr.startswith].
    cbn [PyStr.contains] in Hc.
    destruct (Ascii.eqb_spec c p) as [E|Hne]; [discriminate|].
    destruct (Ascii.eqb_spec p c) as [E|_]; [congruence | reflexivity].
  - change (String d s +:+ String c EmptyString) with (String d (s +:+ String c EmptyString)).
    cbn [TypeHints.remove_from]. cbn [String.length] in Hk.
    destruct k as [|k].
    + change (String d (s +:+ String c EmptyString))
        with (String d s +:+ String c EmptyString).
      rewrite (startswith_app_char _ _ _ _ Hc).
      destruct (PyStr.startswith (String d s) (String p old)) eqn:E.
      * apply IH. apply startswith_length in E. cbn [String.length Nat.pred] in E |- *. lia.
      * cbn [String.append]. now rewrite IH by lia.
    + apply IH. lia.
Qed.

Lemma remove_from_absent (c : ascii) (old s : string) :
  PyStr.contains c s = false →
  TypeHints.remove_from (String c old) 0 s = s.
Proof.
  induction s as [|d s IH]; cbn [PyStr.contains TypeHints.remove_from PyStr.startswith];
    [reflexivity|].
  destruct (Ascii.eqb c d); [discriminate|]. intros H. now rewrite IH.
Qed.

Lemma remove_char_absent_app (c : ascii) (s : string) :
  PyStr.contains c s = false →
  TypeHints.remove (String c EmptyString) (s +:+ String c EmptyString) = s.
Proof.
  unfold TypeHints.remove. induction s as [|d s IH].
  - intros _. change (EmptyString +:+ String c EmptyString) with (String c EmptyString).
    cbn [TypeHints.remove_from PyStr.startswith]. now rewrite Ascii.eqb_refl.
  - change (String d s +:+ String c EmptyString) with (String d (s +:+ String c EmptyString)).
    cbn [PyStr.contains TypeHints.remove_from PyStr.startswith].
    destruct (Ascii.eqb c d); [discriminate|]. intros H. now rewrite IH.
Qed.

(** X29. For a flat union hint, [Union] with a bracketed argument text
    that has no bracket and no [Union] of its own, the result is the list
    of the comma-separated arguments, each stripped of surrounding white
    space. *)
Theorem extract_union_types_flat (arguments : string) :
  TypeHints.remove "Union" arguments = arguments →
  PyStr.contains "[" arguments = false →
  PyStr.contains "]" arguments = false →
  TypeHints.extract_union_types ("Union[" +:+ arguments +:+ "]")
  = List.map TypeHints.strip (TypeHints.split "," arguments).
Proof.
  intros Hunion Hopen Hclose. unfold TypeHints.extract_union_types. cbv zeta.
  assert (E1 : TypeHints.remove "Union" ("Union[" +:+ arguments +:+ "]")
               = "[" +:+ arguments +:+ "]").
  { unfold TypeHints.remove in *.
    change (TypeHints.remove_from "Union" 0 ("Union[" +:+ arguments +:+ "]"))
      with (String "[" (TypeHints.remove_from "Union" 0 (arguments +:+ "]"))).
    rewrite (remove_from_app_char "]" "U" "nion" arguments 0 eq_refl) by lia.
    now rewrite Hunion. }
  rewrite E1.
  assert (E2 : TypeHints.remove "[" ("[" +:+ arguments +:+ "]") = arguments +:+ "]").
  { unfold TypeHints.remove.
    change (TypeHints.remove_from "[" 0 ("[" +:+ arguments +:+ "]"))
      with (TypeHints.remove_from "[" 0 (arguments +:+ "]")).
    apply remove_from_absent. rewrite contains_app, Hopen. reflexivity. }
  rewrite E2, (remove_char_absent_app "]" _ Hclose). reflexivity.
Qed.

Lemma extract_union_types_flat_witness :
  TypeHints.extract_union_types ("Union[" +:+ "int, str , Data" +:+ "]")
  = List.map TypeHints.strip (TypeHints.split "," "int, str , Data").
Proof.
  apply (extract_union_types_flat "int, str , Data"); reflexivity.
Defined.

Example extract_union_types_flat_example :
  TypeHints.extract_union_types "Union[int, str , Data]" = ["int"; "str"; "Data"].
Proof. reflexivity. Qed.

Lemma contains_remove_from (c : ascii) (old s : string) (k : nat) :
  PyStr.contains c s = false → PyStr.contains c (TypeHints.remove_from old k s) = false.
Proof.
  revert k. induction s as [|d s IH]; intros k; [reflexivity|].
  cbn [PyStr.contains TypeHints.remove_from].
  destruct (Ascii.eqb c d) eqn:E; [discriminate|]. intros H.
  destruct k as [|k]; [|now apply IH].
  destruct (PyStr.startswith (String d s) old); [now apply IH|].
  cbn [PyStr.contains]. rewrite E. now apply IH.
Qed.

Lemma contains_remove_char (c : ascii) (s : string) :
  PyStr.contains c (TypeHints.remove (String c EmptyString) s) = false.
Proof.
  unfold TypeHints.remove. induction s as [|d s IH]; [reflexivity|].
  cbn [TypeHints.remove_from PyStr.startswith].
  destruct (Ascii.eqb c d) eqn:E; [exact IH|].
  cbn [PyStr.contains]. now rewrite E.
Qed.

Lemma split_items (c : ascii) (s item : string) :
  In item (TypeHints.split c s) →
  PyStr.contains c item = false
  ∧ ∀ d, PyStr.contains d s = false → PyStr.contains d item = false.
Proof.
  revert item. induction s as [|a s IH]; intros item; cbn [TypeHints.split].
  - intros [<-|[]]. split; [reflexivity | trivial].
  - destruct (Ascii.eqb c a) eqn:E.
    + intros [<-|Hin].
      * split; [reflexivity | reflexivity].
      * destruct (IH _ Hin) as [H1 H2]. split; [exact H1|].
        intros d. cbn [PyStr.contains]. destruct (Ascii.eqb d a); [discriminate|]. apply H2.
    + destruct (TypeHints.split c s) as [|h t] eqn:Es.
      * intros [<-|[]]. cbn [PyStr.contains]. rewrite E. split; [reflexivity|].
        intros d. destruct (Ascii.eqb d a); [discriminate | reflexivity].
      * intros [<-|Hin].
        -- destruct (IH h (or_introl eq_refl)) as [H1 H2].
           cbn [PyStr.contains]. rewrite E. split; [exact H1|].
           intros d. destruct (Ascii.eqb d a); [discriminate|]. apply H2.
        -- destruct (IH item (or_intror Hin)) as [H1 H2]. split; [exact H1|].
           intros d. cbn [PyStr.contains]. destruct (Ascii.eqb d a); [discriminate|]. apply H2.
Qed.

Lemma contains_lstrip_with (c : ascii) (spaces : list string) (fuel : nat) (s : string) :
  PyStr.contains c s = false →
  PyStr.contains c (TypeHints.lstrip_with spaces fuel s) = false.
Proof.
  revert s. induction fuel as [|fuel IH]; intros s Hs; [exact Hs|].
  cbn [TypeHints.lstrip_with].
  destruct (TypeHints.strip_one_of spaces s) as [s'|] eqn:E; [|exact Hs].
  apply IH. exact (contains_strip_one_of _ _ _ _ E Hs).
Qed.

Lemma contains_rev_string (c : ascii) (s : string) :
  PyStr.contains c (TypeHints.rev_string s) = PyStr.contains c s.
Proof.
  induction s as [|d s IH]; [reflexivity|].
  cbn [TypeHints.rev_string PyStr.contains]. rewrite contains_app, IH.
  cbn [PyStr.contains]. destruct (PyStr.contains c s), (Ascii.eqb c d); reflexivity.
Qed.

Lemma contains_strip (c : ascii) (s : string) :
  PyStr.contains c s = false → PyStr.contains c (TypeHints.strip s) = false.
Proof.
  intros Hs. unfold TypeHints.strip, TypeHints.rstrip, TypeHints.lstrip.
  rewrite contains_rev_string. apply contains_lstrip_with.
  rewrite contains_rev_string. now apply contains_lstrip_with.
Qed.

(** X30. No item of the result of [extract_union_types] has a bracket or
    a comma in it, whatever the hint. *)
Theorem extract_union_types_items (return_type item : string) :
  In item (TypeHints.extract_union_types return_type) →
  PyStr.contains "[" item = false
  ∧ PyStr.contains "]" item = false
  ∧ PyStr.contains "," item = false.
Proof.
  unfold TypeHints.extract_union_types. cbv zeta. rewrite in_map_iff.
  intros [raw [<- Hin]]. apply split_items in Hin. destruct Hin as [Hcomma Hother].
  repeat split; apply contains_strip.
  - apply Hother. unfold TypeHints.remove at 1. apply contains_remove_from.
    apply contains_remove_char.
  - apply Hother. apply contains_remove_char.
  - exact Hcomma.
Qed.

Lemma extract_union_types_items_witness :
  PyStr.contains "[" "Listint" = false
  ∧ PyStr.contains "]" "Listint" = false
  ∧ PyStr.contains "," "Listint" = false.
Proof.
  apply (extract_union_types_items "Union[List[int], Optional[str]]" "Listint").
  left. reflexivity.
Defined.
